(** * docker-cp: a shallow embedding of [docker_cp.py]

    The development follows the source top-down: the file-mode bits and the
    two classifications [_is_dir] and [_is_reg]; the chunk-to-stream adapter
    [_Reader]; the local filesystem, the container engine and the [tarfile]
    codec the orchestrator talks to; the two transfer directions
    [copy_from] and [copy_to]; the command-line driver [copy]. *)

From Stdlib Require Import ZArith Lia Ascii.
From Stdlib.Strings Require Import Byte.
From stdpp Require Import base tactics option list strings gmap.

Local Open Scope Z_scope.

(** ** Constants *)

Definition DEFAULT_BUF_SIZE : Z := 1024.
Definition SEP : ascii := ":"%char.

(** Python [bytes] values. *)
Abbreviation bytes := (list byte).

(** ** File-mode bits (ported by the source from Go's [os/types.go]) *)

Definition MODE_DIR : Z := Z.shiftl 1 (32 - 1).
Definition MODE_SYMLINK : Z := Z.shiftl 1 (32 - 4).
Definition MODE_DEV : Z := Z.shiftl 1 (32 - 5).
Definition MODE_NAMED_PIPE : Z := Z.shiftl 1 (32 - 6).
Definition MODE_SOCKET : Z := Z.shiftl 1 (32 - 7).
Definition MODE_CHAR_DEV : Z := Z.shiftl 1 (32 - 10).
Definition MODE_IRREGULAR : Z := Z.shiftl 1 (32 - 12).
Definition MODE_REG : Z :=
  Z.lor (Z.lor (Z.lor (Z.lor (Z.lor (Z.lor MODE_DIR MODE_SYMLINK)
    MODE_NAMED_PIPE) MODE_SOCKET) MODE_DEV) MODE_CHAR_DEV) MODE_IRREGULAR.

(** [mode & MODE_DIR != 0] *)
Definition _is_dir (mode : Z) : bool := negb (Z.land mode MODE_DIR =? 0).

(** [mode & MODE_REG == 0] *)
Definition _is_reg (mode : Z) : bool := Z.land mode MODE_REG =? 0.

(** Bit positions of the seven special bits, and the two readings of the
    data model's words: a bit of the mode is set; a mode is a 32-bit field. *)
Definition BIT_DIR : Z := 31.
Definition BIT_SYMLINK : Z := 28.
Definition BIT_DEV : Z := 27.
Definition BIT_NAMED_PIPE : Z := 26.
Definition BIT_SOCKET : Z := 25.
Definition BIT_CHAR_DEV : Z := 22.
Definition BIT_IRREGULAR : Z := 20.

Definition special_bits : list Z :=
  [BIT_DIR; BIT_SYMLINK; BIT_DEV; BIT_NAMED_PIPE; BIT_SOCKET; BIT_CHAR_DEV;
   BIT_IRREGULAR].

Definition other_special_bits : list Z :=
  [BIT_SYMLINK; BIT_DEV; BIT_NAMED_PIPE; BIT_SOCKET; BIT_CHAR_DEV;
   BIT_IRREGULAR].

Definition is_mode32 (m : Z) : Prop := 0 <= m < 2 ^ 32.

(** Some bit of [bs] is set in [m]. *)
Definition any_bit_set (bs : list Z) (m : Z) : bool :=
  existsb (Z.testbit m) bs.

(** ** Python slicing of a byte string, [b[:n]] and [b[n:]]

    A negative bound counts from the end and is clipped at the start. *)

Definition slice_bound (b : bytes) (n : Z) : nat :=
  if n <? 0 then Z.to_nat (Z.max 0 (Z.of_nat (length b) + n)) else Z.to_nat n.

Definition slice_to (b : bytes) (n : Z) : bytes := take (slice_bound b n) b.
Definition slice_from (b : bytes) (n : Z) : bytes := drop (slice_bound b n) b.

(** ** The chunk-to-stream adapter, class [_Reader] *)

Module _Reader.

(** The generator is the list of chunks it has yet to yield; [next] pops
    the head and an exhausted generator stays exhausted. *)
Record t := mk { _generator : list bytes; _buf : bytes }.

(** [__init__] *)
Definition init (generator : list bytes) : t :=
  {| _generator := generator; _buf := [] |}.

(** The [while len(rv) < n] loop of [read]: [rv] is the local result,
    [buf] the residual buffer [self._buf]. *)
Fixpoint read_loop (n : Z) (generator : list bytes) (rv buf : bytes)
  : bytes * t :=
  if Z.of_nat (length rv) <? n then
    match generator with
    | [] => (rv, mk [] buf)
    | data :: generator' =>
        let to_return := n - Z.of_nat (length rv) in
        read_loop n generator' (rv ++ (buf ++ slice_to data to_return))
                  (slice_from data to_return)
    end
  else (rv, mk generator buf).

Definition read (self : t) (n : Z) : bytes * t :=
  if Z.of_nat (length (_buf self)) >=? n then
    (slice_to (_buf self) n, mk (_generator self) (slice_from (_buf self) n))
  else
    read_loop n (_generator self) (_buf self) [].

(** A caller issuing the reads [ns] one after the other. *)
Fixpoint reads (self : t) (ns : list Z) : list bytes * t :=
  match ns with
  | [] => ([], self)
  | n :: ns' =>
      let '(rv, self') := read self n in
      let '(rvs, self'') := reads self' ns' in
      (rv :: rvs, self'')
  end.

(** The bytes the adapter has yet to return: the residual buffer followed
    by the chunks the source has yet to produce. *)
Definition remaining (self : t) : bytes :=
  _buf self ++ concat (_generator self).

End _Reader.

(** ** Paths, after Python's [posixpath] *)

Definition SLASH : ascii := "/"%char.

(** [(p[:i], p[i:])] for [i = p.rfind('/') + 1], when [p] has a slash. *)
Fixpoint rsplit_slash (p : string) : option (string * string) :=
  match p with
  | EmptyString => None
  | String c p' =>
      match rsplit_slash p' with
      | Some (head, tail) => Some (String c head, tail)
      | None => if Ascii.eqb c SLASH then Some (String c EmptyString, p')
                else None
      end
  end.

Fixpoint all_slashes (s : string) : bool :=
  match s with
  | EmptyString => true
  | String c s' => Ascii.eqb c SLASH && all_slashes s'
  end.

(** [s.rstrip('/')] *)
Fixpoint rstrip_slash (s : string) : string :=
  match s with
  | EmptyString => EmptyString
  | String c s' =>
      match rstrip_slash s' with
      | EmptyString => if Ascii.eqb c SLASH then EmptyString
                       else String c EmptyString
      | r => String c r
      end
  end.

Definition os_path_dirname (p : string) : string :=
  let head := match rsplit_slash p with Some (h, _) => h | None => "" end in
  if negb (String.eqb head "") && negb (all_slashes head)
  then rstrip_slash head else head.

Definition os_path_basename (p : string) : string :=
  match rsplit_slash p with Some (_, t) => t | None => p end.

Definition ends_with_slash (s : string) : bool :=
  match rsplit_slash s with Some (_, EmptyString) => true | _ => false end.

Definition os_path_join (a b : string) : string :=
  match b with
  | String c _ =>
      if Ascii.eqb c SLASH then b
      else if String.eqb a "" || ends_with_slash a then a +:+ b
      else a +:+ "/" +:+ b
  | EmptyString =>
      if String.eqb a "" || ends_with_slash a then a else a +:+ "/"
  end.

(** ** [str] operations of the driver *)

(** [sep in s] *)
Fixpoint str_contains (sep : ascii) (s : string) : bool :=
  match s with
  | EmptyString => false
  | String c s' => Ascii.eqb c sep || str_contains sep s'
  end.

(** The text before and after the first [sep] of [s], when there is one. *)
Fixpoint split_first (sep : ascii) (s : string) : option (string * string) :=
  match s with
  | EmptyString => None
  | String c s' =>
      if Ascii.eqb c sep then Some (EmptyString, s')
      else match split_first sep s' with
           | Some (a, b) => Some (String c a, b)
           | None => None
           end
  end.

(** [s.split(sep, maxsplit=1)] *)
Definition str_split_max1 (sep : ascii) (s : string) : list string :=
  match split_first sep s with
  | Some (a, b) => [a; b]
  | None => [s]
  end.

(** ** Exceptions, the world and the effect monad *)

Inductive exn :=
  | APIError (msg : string)          (* docker.errors.APIError and subclasses *)
  | CopyError (msg : string)
  | IsADirectoryError
  | OtherError (what : string).      (* any other exception *)

Inductive outcome (A : Type) :=
  | Return (a : A)
  | Raise (e : exn).
Arguments Return {A} a.
Arguments Raise {A} e.

(** The local filesystem: what a path names. Paths are compared as written. *)
Inductive node :=
  | Dir
  | File (content : bytes).

(** Calls made to the container engine, in the order they are made. *)
Inductive call :=
  | FromEnv
  | ContainersGet (name : string)
  | GetArchive (path : string) (chunk_size : option Z)
  | CloseStream
  | PutArchive (path : string) (data : bytes).

Record world := mkWorld {
  fs : gmap string node;
  calls : list call;
  stdout : list string
}.

Definition M (A : Type) : Type := world -> outcome A * world.

Definition ret {A} (a : A) : M A := fun w => (Return a, w).
Definition raise {A} (e : exn) : M A := fun w => (Raise e, w).
Definition bind {A B} (m : M A) (k : A -> M B) : M B :=
  fun w => match m w with
           | (Return a, w') => k a w'
           | (Raise e, w') => (Raise e, w')
           end.

Notation "'let*' x ':=' m 'in' k" := (bind m (fun x => k))
  (at level 10, x name, m at level 100, k at level 200, only parsing).
Notation "'let*' ' pat ':=' m 'in' k" :=
  (bind m (fun x => match x with pat => k end))
  (at level 10, pat pattern, m at level 100, k at level 200, only parsing).
Notation "m >> k" := (bind m (fun _ => k))
  (at level 100, k at level 200, only parsing, right associativity).

(** [try: body finally: cleanup] *)
Definition try_finally {A} (body : M A) (cleanup : M unit) : M A :=
  fun w => match body w with
           | (r, w') => match cleanup w' with
                        | (Return _, w'') => (r, w'')
                        | (Raise e, w'') => (Raise e, w'')
                        end
           end.

(** [try: body except IsADirectoryError: handler] *)
Definition except_IsADirectoryError {A} (body handler : M A) : M A :=
  fun w => match body w with
           | (Raise IsADirectoryError, w') => handler w'
           | rw => rw
           end.

(** [try: body except APIError: handler else: orelse] *)
Definition except_APIError_else {A B} (body : M A) (handler : M B)
    (orelse : A -> M B) : M B :=
  fun w => match body w with
           | (Raise (APIError _), w') => handler w'
           | (Raise e, w') => (Raise e, w')
           | (Return a, w') => orelse a w'
           end.

Definition log_call (c : call) : M unit :=
  fun w => (Return tt, mkWorld (fs w) (calls w ++ [c]) (stdout w)).

Definition print (s : string) : M unit :=
  fun w => (Return tt, mkWorld (fs w) (calls w) (stdout w ++ [s])).

(** *** Local filesystem operations *)

Definition os_path_isdir (p : string) : M bool :=
  fun w => (Return (match fs w !! p with Some Dir => true | _ => false end), w).

Definition os_path_isfile (p : string) : M bool :=
  fun w => (Return (match fs w !! p with Some (File _) => true | _ => false end),
            w).

(** [open(p, 'wb')]: creates or truncates the file. *)
Definition open_wb (p : string) : M unit :=
  fun w => match fs w !! p with
           | Some Dir => (Raise IsADirectoryError, w)
           | _ => (Return tt, mkWorld (<[p := File []]> (fs w)) (calls w)
                                      (stdout w))
           end.

(** [f.write(chunk)] on the file opened at [p]. *)
Definition file_write (p : string) (chunk : bytes) : M unit :=
  fun w => match fs w !! p with
           | Some (File old) =>
               (Return tt, mkWorld (<[p := File (old ++ chunk)]> (fs w))
                                   (calls w) (stdout w))
           | _ => (Raise (OtherError "write"), w)
           end.

(** The bytes of the local file [p]. *)
Definition file_read (p : string) : M bytes :=
  fun w => match fs w !! p with
           | Some (File content) => (Return content, w)
           | _ => (Raise (OtherError "read"), w)
           end.

(** ** The container engine client

    A container answers the two archive endpoints; the responses are taken as
    given. [get_archive] yields the chunk generator and the stat dictionary,
    of which the source reads the key ['mode'] only. *)

Record Stat := mkStat { st_mode : Z }.

Record Container := mkContainer {
  get_archive_response : string -> outcome (list bytes * Stat);
  put_archive_response : string -> bytes -> outcome bool
}.

Record Docker := mkDocker {
  from_env_response : outcome unit;
  containers_get_response : string -> outcome Container
}.

(** [container.get_archive(path, chunk_size=...)]; [None] when the caller
    leaves [chunk_size] to the client library's default. *)
Definition get_archive (container : Container) (path : string)
    (chunk_size : option Z) : M (list bytes * Stat) :=
  log_call (GetArchive path chunk_size) >>
  fun w => (get_archive_response container path, w).

(** [data.close()] *)
Definition stream_close : M unit := log_call CloseStream.

(** [container.put_archive(path, data)] *)
Definition put_archive (container : Container) (path : string) (data : bytes)
    : M bool :=
  log_call (PutArchive path data) >>
  fun w => (put_archive_response container path data, w).

(** [docker.from_env()] *)
Definition docker_from_env (docker : Docker) : M unit :=
  log_call FromEnv >>
  fun w => (from_env_response docker, w).

(** [client.containers.get(name)] *)
Definition containers_get (docker : Docker) (name : string) : M Container :=
  log_call (ContainersGet name) >>
  fun w => (containers_get_response docker name, w).

(** ** The [tarfile] library

    An archive is a sequence of entries; its byte encoding is the library's
    and is taken as an interface. Entries are regular-file members. *)

Record TarEntry := mkEntry { te_name : string; te_data : bytes }.

Class TarCodec := {
  tar_encode : list TarEntry -> bytes;
  tar_decode : bytes -> option (list TarEntry)
}.

(** In stream mode the library takes its input with [fileobj.read(bufsize)]
    and stops at a read that comes back empty; the stream it decodes is
    these reads, one after the other. [fuel] bounds the number of reads;
    [stream_bytes] gives enough of it ([stream_read_enough]). *)
Fixpoint stream_read (fuel : nat) (fileobj : _Reader.t) (bufsize : Z)
    : option bytes :=
  match fuel with
  | O => None
  | S fuel' =>
      match _Reader.read fileobj bufsize with
      | ([], _) => Some []
      | (b, fileobj') =>
          match stream_read fuel' fileobj' bufsize with
          | Some rest => Some (b ++ rest)
          | None => None
          end
      end
  end.

Definition stream_bytes (fileobj : _Reader.t) (bufsize : Z) : option bytes :=
  stream_read (S (length (_Reader.remaining fileobj))) fileobj bufsize.

Section Orchestrator.

Context {codec : TarCodec}.

(** [tarfile.open(fileobj=..., bufsize=..., mode='r|')]: the members of the
    stream; an undecodable or empty archive is a [ReadError]. *)
Definition tarfile_open_r (fileobj : _Reader.t) (bufsize : Z)
    : M (list TarEntry) :=
  match stream_bytes fileobj bufsize with
  | Some b =>
      match tar_decode b with
      | Some (m :: ms) => ret (m :: ms)
      | _ => raise (OtherError "ReadError")
      end
  | None => raise (OtherError "ReadError")
  end.

(** The [while True] loop of [copy_from]: [sf.read(DEFAULT_BUF_SIZE)] on
    the member's payload [sf], written to the file opened at [dest]. [fuel]
    bounds the number of turns; one more than the payload's length is
    enough ([copy_chunks_enough]). *)
Fixpoint copy_chunks (fuel : nat) (sf : bytes) (dest : string) : M unit :=
  match fuel with
  | O => raise (OtherError "fuel")
  | S fuel' =>
      match slice_to sf DEFAULT_BUF_SIZE with
      | [] => ret tt
      | chunk =>
          file_write dest chunk >>
          copy_chunks fuel' (slice_from sf DEFAULT_BUF_SIZE) dest
      end
  end.

(** [tf.extractall(path=dest)] *)
Fixpoint extractall (tf : list TarEntry) (dest : string) : M unit :=
  match tf with
  | [] => ret tt
  | m :: tf' =>
      let target := os_path_join dest (te_name m) in
      open_wb target >>
      file_write target (te_data m) >>
      extractall tf' dest
  end.

Definition copy_from (container : Container) (path dest : string) : M unit :=
  let* '(data, st) := get_archive container path (Some DEFAULT_BUF_SIZE) in
  try_finally
    (except_IsADirectoryError
       (if negb (_is_reg (st_mode st)) then
          raise (CopyError "Only regular files are supported")
        else
          let* tf := tarfile_open_r (_Reader.init data) DEFAULT_BUF_SIZE in
          let* isd := os_path_isdir dest in
          if isd then extractall tf dest
          else
            let parent := os_path_dirname dest in
            let* isp := os_path_isdir parent in
            if negb isp then raise (CopyError ("Not a directory: " +:+ parent))
            else
              match tf with
              | file_to_extract :: _ =>
                  open_wb dest >>
                  let sf := te_data file_to_extract in
                  copy_chunks (S (length sf)) sf dest
              | [] => raise (OtherError "AttributeError")
              end)
       (raise (CopyError "Destination is a directory")))
    stream_close.

Definition get_stat (container : Container) (path : string) : M Stat :=
  let* '(data, st) := get_archive container path None in
  stream_close >>
  ret st.

Definition copy_to (container : Container) (path src : string) : M unit :=
  let* isf := os_path_isfile src in
  if negb isf then raise (CopyError ("Not a file: " +:+ src))
  else
    let* '(dest_dir, dest_file) := except_APIError_else (get_stat container path)
        (ret (os_path_dirname path, os_path_basename path))
        (fun st =>
           if _is_dir (st_mode st) then ret (path, os_path_basename src)
           else if _is_reg (st_mode st) then
             ret (os_path_dirname path, os_path_basename path)
           else raise (CopyError ("Unable to overwrite " +:+ path))) in
    let* content := file_read src in
    put_archive container dest_dir
      (tar_encode [mkEntry dest_file content]) >>
    ret tt.

(** ** The command-line driver *)

Record Args := mkArgs {
  buffer_length : Z;
  source : string;
  destination : string
}.

(** [a, b = l] *)
Definition unpack2 (l : list string) : M (string * string) :=
  match l with
  | [a; b] => ret (a, b)
  | _ => raise (OtherError "ValueError")
  end.

(** The body of the [try] statement of [copy]. *)
Definition copy_attempt (docker : Docker)
    (action : Container -> string -> string -> M unit)
    (container_name container_path local_path : string) : M unit :=
  docker_from_env docker >>
  let* container := containers_get docker container_name in
  action container container_path local_path.

(** The [try] statement of [copy] with its two handlers, and the final
    [return 0]. *)
Definition copy_run (docker : Docker)
    (action : Container -> string -> string -> M unit)
    (container_name container_path local_path : string) : M Z :=
  fun w =>
    match copy_attempt docker action container_name container_path
            local_path w with
    | (Raise (APIError e), w') =>
        (print ("Docker API error: " +:+ e) >> ret 2) w'
    | (Raise (CopyError e), w') =>
        (print ("Copy error: " +:+ e) >> ret 2) w'
    | (Raise e, w') => (Raise e, w')
    | (Return _, w') => (Return 0, w')
    end.

Definition copy (docker : Docker) (args : Args) : M Z :=
  if buffer_length args <=? 0 then
    print "Buffer length should be positive integer" >> ret 1
  else
    let src := source args in
    let dst := destination args in
    if str_contains SEP src && negb (str_contains SEP dst) then
      let* '(container_name, container_path) := unpack2 (str_split_max1 SEP src) in
      copy_run docker copy_from container_name container_path dst
    else if str_contains SEP dst && negb (str_contains SEP src) then
      let* '(container_name, container_path) := unpack2 (str_split_max1 SEP dst) in
      copy_run docker copy_to container_name container_path src
    else
      print "Either source or destination should have format<container>:<path>" >>
      ret 1.

End Orchestrator.

(** The world after the engine calls [cs], with the local files as before. *)
Definition after_calls (w : world) (cs : list call) : world :=
  mkWorld (fs w) (calls w ++ cs) (stdout w).

(** The outcome of a call whose value the caller drops. *)
Definition discard {A} (r : outcome A) : outcome unit :=
  match r with
  | Return _ => Return tt
  | Raise e => Raise e
  end.

(** What an upload that reaches the engine's upload call leaves behind: the
    stat calls [stat_calls], then one upload of the archive whose single
    entry is [content] under [dest_file], into [dest_dir]. *)
Definition uploaded {codec : TarCodec} (container : Container) (w : world)
    (stat_calls : list call) (dest_dir dest_file : string) (content : bytes)
    : outcome unit * world :=
  let archive := tar_encode [mkEntry dest_file content] in
  (discard (put_archive_response container dest_dir archive),
   after_calls w (stat_calls ++ [PutArchive dest_dir archive])).

(** ** Fixtures, after [test_docker_cp.py] *)

Definition b_ (s : string) : bytes := String.list_byte_of_string s.

(** [mock_generator]: five chunks [b'abc']. *)
Definition mock_generator : list bytes := replicate 5 (b_ "abc").

(** A codec for the examples: the archive of a single member named
    [fedora-release] is its payload. *)
Definition example_codec : TarCodec := {|
  tar_encode := fun entries => concat (te_data <$> entries);
  tar_decode := fun b => Some [mkEntry "fedora-release" b]
|}.

Definition fedora_release : bytes := b_ "Fedora release 25 (Twenty Five)".

(** The test container: [/etc] and [/tmp/test-copy-to] are directories,
    [/etc/fedora-release] a regular file, [/dev/stdout] a symbolic link. *)
Definition test_container : Container := {|
  get_archive_response := fun path =>
    if String.eqb path "/etc/fedora-release" then
      Return ([fedora_release], mkStat 420)
    else if String.eqb path "/etc" then
      Return ([b_ "etc"], mkStat (Z.lor MODE_DIR 493))
    else if String.eqb path "/tmp/test-copy-to" then
      Return ([], mkStat (Z.lor MODE_DIR 493))
    else if String.eqb path "/dev/stdout" then
      Return ([], mkStat (Z.lor MODE_SYMLINK 511))
    else Raise (APIError "404 Client Error: Not Found");
  put_archive_response := fun _ _ => Return true
|}.

Definition test_docker : Docker := {|
  from_env_response := Return tt;
  containers_get_response := fun name =>
    if String.eqb name "test" then Return test_container
    else Raise (APIError "404 Client Error: No such container")
|}.

(** A client that cannot be built: [from_env] raises an exception that is
    not an engine API error. *)
Definition broken_docker : Docker := {|
  from_env_response := Raise (OtherError "DockerException");
  containers_get_response := fun _ => Return test_container
|}.

(** The local side: [/tmp] is a directory holding the file [src1]. *)
Definition test_world : world := {|
  fs := {[ "/tmp" := Dir; "/tmp/src1" := File (b_ "source1") ]};
  calls := [];
  stdout := []
|}.

(** A mode with the directory bit and the symbolic-link bit. *)
Definition mode_dir_symlink : Z := Z.lor MODE_DIR MODE_SYMLINK.

(** The number of chunks pulled from the source between two states of the
    adapter. *)
Definition pulled (before after : _Reader.t) : nat :=
  (length (_Reader._generator before) - length (_Reader._generator after))%nat.

(** Two modes agree on every special bit. *)
Definition same_special_bits (m m' : Z) : bool :=
  forallb (fun b => Bool.eqb (Z.testbit m b) (Z.testbit m' b)) special_bits.

(** The local files after the members [tf] are written under [dest]. *)
Definition extracted (dest : string) (tf : list TarEntry)
    (files : gmap string node) : gmap string node :=
  foldl (fun f m => <[os_path_join dest (te_name m) := File (te_data m)]> f)
        files tf.

(** A computation that leaves the engine's call log and the standard output
    as they are. *)
Definition keeps_log {A} (m : M A) : Prop :=
  forall w, calls (m w).2 = calls w /\ stdout (m w).2 = stdout w.

(** [/tmp] with a directory [/tmp/fedora-release] in it, and with a file
    [/tmp/tr] that holds older bytes. *)
Definition collision_world : world := {|
  fs := {[ "/tmp" := Dir; "/tmp/fedora-release" := Dir;
           "/tmp/tr" := File (b_ "old") ]};
  calls := [];
  stdout := []
|}.

(** The test container with a read-only filesystem: the engine refuses
    every upload. *)
Definition readonly_container : Container := {|
  get_archive_response := get_archive_response test_container;
  put_archive_response := fun _ _ =>
    Raise (APIError "500 Server Error: read-only file system")
|}.

Definition readonly_docker : Docker := {|
  from_env_response := Return tt;
  containers_get_response := fun _ => Return readonly_container
|}.

(** A container whose engine connection breaks: the archive endpoint raises
    an exception that is not an engine API error. *)
Definition unreachable_container : Container := {|
  get_archive_response := fun _ => Raise (OtherError "ConnectionError");
  put_archive_response := fun _ _ => Raise (OtherError "ConnectionError")
|}.

(** ** Mode bits: what the two classifications test *)

Section Modes.

Lemma MODE_REG_bits (i : Z) :
  Z.testbit MODE_REG i = bool_decide (i ∈ special_bits).
Proof.
  destruct (Z_lt_le_dec i 0) as [Hneg|Hnn].
  { rewrite Z.testbit_neg_r by lia.
    symmetry. apply bool_decide_eq_false. unfold special_bits.
    rewrite !elem_of_cons, elem_of_nil.
    unfold BIT_DIR, BIT_SYMLINK, BIT_DEV, BIT_NAMED_PIPE, BIT_SOCKET,
      BIT_CHAR_DEV, BIT_IRREGULAR. lia. }
  destruct (Z_lt_le_dec i 32) as [Hlt|Hge].
  - assert (Hi : i ∈ (Z.of_nat <$> seq 0 32)).
    { apply list_elem_of_fmap. exists (Z.to_nat i). split; [lia|].
      apply elem_of_seq. lia. }
    revert Hi. generalize i. apply Forall_forall.
    vm_compute. repeat constructor.
  - rewrite Z.bits_above_log2; [|vm_compute; congruence|].
    + symmetry. apply bool_decide_eq_false. unfold special_bits.
      rewrite !elem_of_cons, elem_of_nil.
      unfold BIT_DIR, BIT_SYMLINK, BIT_DEV, BIT_NAMED_PIPE, BIT_SOCKET,
        BIT_CHAR_DEV, BIT_IRREGULAR. lia.
    + replace (Z.log2 MODE_REG) with 31 by (vm_compute; reflexivity). lia.
Qed.

(** A mask test [m & mask == 0] says that [m] has none of the mask's bits. *)
Lemma land_zero_iff (m mask : Z) :
  Z.land m mask = 0 <->
  forall i, Z.testbit mask i = true -> Z.testbit m i = false.
Proof.
  split.
  - intros Hz i Hi.
    assert (Hb : Z.testbit (Z.land m mask) i = false)
      by (rewrite Hz; apply Z.bits_0).
    rewrite Z.land_spec, Hi, andb_true_r in Hb. exact Hb.
  - intros Hbits. apply Z.bits_inj'. intros i _.
    rewrite Z.land_spec, Z.bits_0.
    destruct (Z.testbit mask i) eqn:Hi; [|apply andb_false_r].
    rewrite (Hbits i Hi). reflexivity.
Qed.

Lemma any_bit_set_false (bs : list Z) (m : Z) :
  any_bit_set bs m = false <-> forall i, i ∈ bs -> Z.testbit m i = false.
Proof.
  unfold any_bit_set. induction bs as [|b bs IH]; simpl.
  - split; [intros _ i Hi; inversion Hi | reflexivity].
  - rewrite orb_false_iff, IH. split.
    + intros [Hb Hbs] i Hi. apply elem_of_cons in Hi as [->|Hi]; auto.
    + intros Hall. split; [apply Hall; left|].
      intros i Hi. apply Hall. right. exact Hi.
Qed.

Lemma _is_reg_spec (m : Z) :
  _is_reg m = true <-> any_bit_set special_bits m = false.
Proof.
  unfold _is_reg. rewrite Z.eqb_eq, land_zero_iff, any_bit_set_false.
  split; intros Hm i Hi.
  - apply Hm. rewrite MODE_REG_bits. apply bool_decide_eq_true. exact Hi.
  - apply Hm. rewrite MODE_REG_bits in Hi.
    apply bool_decide_eq_true in Hi. exact Hi.
Qed.

Lemma _is_dir_spec (m : Z) : _is_dir m = Z.testbit m BIT_DIR.
Proof.
  unfold _is_dir.
  destruct (Z.testbit m BIT_DIR) eqn:Hb.
  - apply negb_true_iff, Z.eqb_neq. intros Hz.
    rewrite land_zero_iff in Hz.
    rewrite (Hz BIT_DIR) in Hb; [discriminate | reflexivity].
  - apply negb_false_iff, Z.eqb_eq, land_zero_iff. intros i Hi.
    unfold MODE_DIR in Hi. rewrite Z.shiftl_1_l in Hi.
    destruct (Z_lt_le_dec i 0) as [Hneg|Hnn].
    { rewrite Z.testbit_neg_r in Hi by lia. discriminate. }
    rewrite Z.pow2_bits_eqb in Hi by lia.
    apply Z.eqb_eq in Hi. subst i. exact Hb.
Qed.

(** A regular mode is not a directory mode. *)
Lemma _is_reg_not_dir (m : Z) : _is_reg m = true -> _is_dir m = false.
Proof.
  rewrite _is_reg_spec, any_bit_set_false, _is_dir_spec.
  intros Hm. apply Hm. unfold special_bits. left.
Qed.

(** C4, as the code has it. [_is_dir m] holds if and only if the directory
    bit of [m] is set; the other special bits are not consulted. *)
Theorem _is_dir_iff_dir_bit (m : Z) :
  _is_dir m = true <-> Z.testbit m BIT_DIR = true.
Proof. rewrite _is_dir_spec. reflexivity. Qed.

(** C4, as stated, fails. The 32-bit mode with the directory bit and the
    symbolic-link bit is classified as a directory although another special
    bit is set. *)
Lemma _is_dir_not_only_dir_bit :
  is_mode32 mode_dir_symlink /\
  ~ (_is_dir mode_dir_symlink = true <->
     Z.testbit mode_dir_symlink BIT_DIR = true /\
     any_bit_set other_special_bits mode_dir_symlink = false).
Proof.
  split; [vm_compute; split; congruence|].
  intros [Hdir _].
  assert (Hd : _is_dir mode_dir_symlink = true) by (vm_compute; reflexivity).
  destruct (Hdir Hd) as [_ Hother].
  vm_compute in Hother. discriminate.
Qed.

(** C6. [_is_reg m] holds if and only if none of the seven special bits
    (directory, symlink, device, named pipe, socket, char device, irregular)
    is set in [m], for every mode and so for every 32-bit one; the all-zero
    mode is classified as a regular file. *)
Theorem _is_reg_iff_no_special_bit :
  (forall m : Z,
      _is_reg m = true <->
      Z.testbit m BIT_DIR = false /\ Z.testbit m BIT_SYMLINK = false /\
      Z.testbit m BIT_DEV = false /\ Z.testbit m BIT_NAMED_PIPE = false /\
      Z.testbit m BIT_SOCKET = false /\ Z.testbit m BIT_CHAR_DEV = false /\
      Z.testbit m BIT_IRREGULAR = false) /\
  _is_reg 0 = true.
Proof.
  split; [|reflexivity].
  intros m. rewrite _is_reg_spec. unfold any_bit_set, special_bits. simpl.
  rewrite !orb_false_iff. tauto.
Qed.

End Modes.

(** ** The adapter returns the source's bytes, in order *)

Section Adapter.

Import _Reader.

Implicit Types (b rv buf data : bytes) (n : Z) (self : t).

Lemma slice_to_from b n : slice_to b n ++ slice_from b n = b.
Proof. apply take_drop. Qed.

Lemma slice_bound_nonneg b n : 0 <= n -> slice_bound b n = Z.to_nat n.
Proof.
  intros Hn. unfold slice_bound.
  destruct (n <? 0) eqn:Hlt; [apply Z.ltb_lt in Hlt; lia | reflexivity].
Qed.

Lemma slice_nil n : slice_to [] n = [] /\ slice_from [] n = [].
Proof. unfold slice_to, slice_from. rewrite take_nil, drop_nil. done. Qed.

(** One run of the loop, entered as the source does: with at most [n]
    bytes gathered, and an empty residual buffer while fewer than [n]. *)
Lemma read_loop_spec (generator : list bytes) :
  forall n rv buf,
    0 <= n ->
    Z.of_nat (length rv) <= n ->
    (Z.of_nat (length rv) < n -> buf = []) ->
    (read_loop n generator rv buf).1
      = take (Z.to_nat n) (rv ++ buf ++ concat generator) /\
    remaining (read_loop n generator rv buf).2
      = drop (Z.to_nat n) (rv ++ buf ++ concat generator).
Proof.
  induction generator as [|data generator IH]; intros n rv buf Hn Hle Hbuf.
  - simpl. destruct (Z.of_nat (length rv) <? n) eqn:Hlt.
    + apply Z.ltb_lt in Hlt. rewrite (Hbuf Hlt). simpl.
      rewrite app_nil_r, take_ge, drop_ge by lia. done.
    + apply Z.ltb_ge in Hlt. unfold remaining. simpl.
      rewrite take_app_length', drop_app_length' by lia. done.
  - simpl. destruct (Z.of_nat (length rv) <? n) eqn:Hlt.
    + apply Z.ltb_lt in Hlt. rewrite (Hbuf Hlt). simpl.
      set (k := n - Z.of_nat (length rv)).
      assert (Hk : 0 <= k) by lia.
      assert (Hlen : length (slice_to data k) = Nat.min (Z.to_nat k) (length data)).
      { unfold slice_to. rewrite slice_bound_nonneg, length_take by lia. done. }
      destruct (IH n (rv ++ slice_to data k) (slice_from data k)) as [H1 H2].
      * lia.
      * rewrite length_app, Hlen. lia.
      * rewrite length_app, Hlen. intros Hshort.
        unfold slice_from. rewrite slice_bound_nonneg by lia.
        apply drop_ge. lia.
      * rewrite H1, H2, <- !(assoc_L (++)), (assoc_L (++) (slice_to data k)),
          slice_to_from. done.
    + apply Z.ltb_ge in Hlt. unfold remaining. simpl.
      rewrite take_app_length', drop_app_length' by lia. done.
Qed.

(** [read(n)] for [0 <= n]: the first [n] bytes that remain, all of them
    when fewer remain; the rest remains. *)
Lemma read_spec self n :
  0 <= n ->
  (read self n).1 = take (Z.to_nat n) (remaining self) /\
  remaining (read self n).2 = drop (Z.to_nat n) (remaining self).
Proof.
  intros Hn. unfold read.
  destruct (Z.of_nat (length (_buf self)) >=? n) eqn:Hge.
  - apply Z.geb_ge in Hge. unfold remaining, slice_to, slice_from. simpl.
    rewrite slice_bound_nonneg by lia.
    rewrite take_app_le, drop_app_le by lia. done.
  - rewrite Z.geb_leb in Hge. apply Z.leb_gt in Hge.
    destruct (read_loop_spec (_generator self) n (_buf self) [])
      as [H1 H2]; [lia | lia | done |].
    split; [exact H1 | exact H2].
Qed.

(** Whatever the size asked for, negative ones included, a read splits
    what remains into the bytes returned and the bytes kept. *)
Lemma read_remaining self n :
  (read self n).1 ++ remaining (read self n).2 = remaining self.
Proof.
  destruct (Z_lt_le_dec n 0) as [Hneg|Hnn].
  - unfold read.
    replace (Z.of_nat (length (_buf self)) >=? n) with true
      by (symmetry; apply Z.geb_ge; lia).
    unfold remaining. simpl. rewrite (assoc_L (++)), slice_to_from. done.
  - destruct (read_spec self n Hnn) as [-> ->]. apply take_drop.
Qed.

Lemma reads_remaining (ns : list Z) :
  forall self,
    concat (reads self ns).1 ++ remaining (reads self ns).2 = remaining self.
Proof.
  induction ns as [|n ns IH]; intros self; simpl; [done|].
  pose proof (read_remaining self n) as Hr.
  destruct (read self n) as [rv self'].
  specialize (IH self').
  destruct (reads self' ns) as [rvs self'']. simpl in *.
  rewrite <- Hr, <- IH, (assoc_L (++)). done.
Qed.

(** A read asking for more than remains returns all that remains. *)
Lemma read_short self n :
  Z.of_nat (length (remaining self)) < n ->
  (read self n).1 = remaining self /\ remaining (read self n).2 = [].
Proof.
  intros Hn. destruct (read_spec self n) as [-> ->]; [lia|].
  rewrite take_ge, drop_ge by lia. done.
Qed.

(** Once nothing remains, every read returns the empty byte string. *)
Lemma read_exhausted self n :
  remaining self = [] ->
  (read self n).1 = [] /\ remaining (read self n).2 = [].
Proof.
  intros Hrem.
  pose proof (read_remaining self n) as Hr. rewrite Hrem in Hr.
  apply app_eq_nil in Hr. exact Hr.
Qed.

Lemma reads_exhausted (ns : list Z) :
  forall self,
    remaining self = [] -> Forall (fun rv => rv = []) (reads self ns).1.
Proof.
  induction ns as [|n ns IH]; intros self Hrem; simpl; [constructor|].
  destruct (read_exhausted self n Hrem) as [H1 H2].
  destruct (read self n) as [rv self']. simpl in *.
  specialize (IH self' H2).
  destruct (reads self' ns) as [rvs self'']. simpl in *.
  constructor; assumption.
Qed.

(** The reads of non-negative sizes return a prefix of what remains, as
    long as the sizes add up to. *)
Lemma reads_prefix (ns : list Z) :
  forall self,
    Forall (fun n => 0 <= n) ns ->
    concat (reads self ns).1
      = take (Z.to_nat (foldr Z.add 0 ns)) (remaining self).
Proof.
  induction ns as [|n ns IH]; intros self Hns; simpl.
  - rewrite take_0. done.
  - inversion Hns as [|? ? Hn Hns']; subst.
    destruct (read_spec self n Hn) as [H1 H2].
    destruct (read self n) as [rv self']. simpl in *.
    specialize (IH self' Hns').
    destruct (reads self' ns) as [rvs self'']. simpl in *.
    assert (0 <= foldr Z.add 0 ns).
    { clear -Hns'. induction Hns'; simpl; lia. }
    rewrite IH, H1, H2, Z2Nat.inj_add, take_take_drop by lia. done.
Qed.

(** [test_reader] of the test suite. *)
Example test_reader :
  (reads (init mock_generator) [1; 2; 4; 7]).1
    = [b_ "a"; b_ "bc"; b_ "abca"; b_ "bcabcab"].
Proof. reflexivity. Qed.

(** C1. Adapter exactness. For every sequence of chunks and every sequence
    of read sizes, the results concatenated, followed by what the adapter
    has yet to return, are the chunks concatenated in order; a sequence of
    non-negative sizes that add up to the length of the source returns all
    of it; a read asking for more bytes than remain returns exactly the
    remaining bytes, which completes the source, and every read after it
    returns the empty byte string. *)
Theorem adapter_exactness (chunks : list bytes) (ns : list Z) :
  let rvs := (reads (init chunks) ns).1 in
  let self := (reads (init chunks) ns).2 in
  concat rvs ++ remaining self = concat chunks /\
  (Forall (fun n => 0 <= n) ns ->
   Z.of_nat (length (concat chunks)) <= foldr Z.add 0 ns ->
   concat rvs = concat chunks) /\
  (forall n,
      Z.of_nat (length (remaining self)) < n ->
      (read self n).1 = remaining self /\
      concat (rvs ++ [(read self n).1]) = concat chunks /\
      forall ms, Forall (fun rv => rv = []) (reads (read self n).2 ms).1).
Proof.
  intros rvs self.
  assert (Hinv : concat rvs ++ remaining self = concat chunks)
    by apply (reads_remaining ns (init chunks)).
  split; [exact Hinv|]. split.
  - intros Hns Hsum. unfold rvs. rewrite reads_prefix by exact Hns.
    unfold remaining. simpl. apply take_ge. lia.
  - intros n Hn. destruct (read_short self n Hn) as [Hrv Hrem].
    split; [exact Hrv|]. split.
    + rewrite concat_app, Hrv. simpl. rewrite app_nil_r. exact Hinv.
    + intros ms. apply reads_exhausted. exact Hrem.
Qed.

(** The reads of [test_reader] followed by a read of seven bytes when one
    is left and by two more reads; and the reads 1, 2, 4, 8, which add up
    to the fifteen bytes of the source. *)
Lemma adapter_exactness_witness :
  (Z.of_nat (length (remaining
      (reads (init mock_generator) [1; 2; 4; 7]).2)) < 7 /\
   (read (reads (init mock_generator) [1; 2; 4; 7]).2 7).1 = b_ "c" /\
   Forall (fun rv => rv = [])
     (reads (read (reads (init mock_generator) [1; 2; 4; 7]).2 7).2
        [3; 1]).1) /\
  (Forall (fun n => 0 <= n) [1; 2; 4; 8] /\
   Z.of_nat (length (concat mock_generator)) <= foldr Z.add 0 [1; 2; 4; 8] /\
   concat (reads (init mock_generator) [1; 2; 4; 8]).1
     = concat mock_generator).
Proof.
  split.
  - pose proof (adapter_exactness mock_generator [1; 2; 4; 7]) as Hexact.
    cbv zeta in Hexact. destruct Hexact as (_ & _ & Hshort).
    assert (Hlt : Z.of_nat (length (remaining
                    (reads (init mock_generator) [1; 2; 4; 7]).2)) < 7)
      by (vm_compute; reflexivity).
    destruct (Hshort 7 Hlt) as (Hrv & _ & Hempty).
    split; [exact Hlt|]. split.
    + rewrite Hrv. reflexivity.
    + exact (Hempty [3; 1]).
  - pose proof (adapter_exactness mock_generator [1; 2; 4; 8]) as Hexact.
    cbv zeta in Hexact. destruct Hexact as (_ & Hfull & _).
    assert (Hns : Forall (fun n => 0 <= n) [1; 2; 4; 8])
      by (repeat constructor; lia).
    assert (Hsum : Z.of_nat (length (concat mock_generator))
                   <= foldr Z.add 0 [1; 2; 4; 8])
      by (vm_compute; congruence).
    split; [exact Hns|]. split; [exact Hsum|].
    exact (Hfull Hns Hsum).
Defined.

End Adapter.

(** ** The stream the decoder sees, and the payload loop *)

Section Streaming.

Import _Reader.

(** Reads of a positive buffer size drain the adapter: with fuel beyond the
    number of bytes that remain, the stream is all of them. *)
Lemma stream_read_enough (bufsize : Z) (fuel : nat) :
  0 < bufsize ->
  forall fileobj,
    (length (remaining fileobj) < fuel)%nat ->
    stream_read fuel fileobj bufsize = Some (remaining fileobj).
Proof.
  intros Hpos. induction fuel as [|fuel IH]; intros fileobj Hfuel; [lia|].
  simpl. destruct (read_spec fileobj bufsize) as [H1 H2]; [lia|].
  destruct (read fileobj bufsize) as [rv fileobj']. simpl in H1, H2.
  destruct rv as [|x rv].
  - symmetry in H1. apply take_nil_inv in H1 as [H0 | ->]; [lia | done].
  - assert (Hrem : remaining fileobj = (x :: rv) ++ remaining fileobj')
      by (rewrite H1, H2, take_drop; done).
    rewrite IH.
    + rewrite Hrem. done.
    + rewrite Hrem, length_app in Hfuel. simpl in Hfuel. lia.
Qed.

Lemma stream_bytes_init (data : list bytes) :
  stream_bytes (init data) DEFAULT_BUF_SIZE = Some (concat data).
Proof.
  unfold stream_bytes. rewrite stream_read_enough; [done | done | lia].
Qed.

End Streaming.

(** ** Download *)

Section Download.

Context {codec : TarCodec}.

Lemma is_reg_false_of_special_bit (m : Z) :
  any_bit_set special_bits m = true -> _is_reg m = false.
Proof.
  intros Hany. destruct (_is_reg m) eqn:Hreg; [|done].
  apply _is_reg_spec in Hreg. congruence.
Qed.

(** C5. When the fetched metadata's mode has a special bit set, [copy_from]
    raises the copy error "Only regular files are supported"; the engine saw
    the fetch and the closing of the stream, the local files are as before,
    and neither the stream's chunks nor the decoder had a part in it. *)
Theorem copy_from_only_regular_files
    (container : Container) (path dest : string) (w : world)
    (data : list bytes) (st : Stat) :
  get_archive_response container path = Return (data, st) ->
  any_bit_set special_bits (st_mode st) = true ->
  copy_from container path dest w
    = (Raise (CopyError "Only regular files are supported"),
       after_calls w [GetArchive path (Some DEFAULT_BUF_SIZE); CloseStream]).
Proof.
  intros Hresp Hany. apply is_reg_false_of_special_bit in Hany.
  unfold copy_from, bind, get_archive, log_call, try_finally,
    except_IsADirectoryError, stream_close, raise, after_calls.
  simpl. rewrite Hresp, Hany. simpl. rewrite <- app_assoc. done.
Qed.

(** The payload loop writes the whole payload after what the file holds. *)
Lemma copy_chunks_enough (fuel : nat) :
  forall (sf : bytes) (dest : string) (w : world) (old : bytes),
    (length sf < fuel)%nat ->
    fs w !! dest = Some (File old) ->
    copy_chunks fuel sf dest w
      = (Return tt,
         mkWorld (<[dest := File (old ++ sf)]> (fs w)) (calls w) (stdout w)).
Proof.
  induction fuel as [|fuel IH]; intros sf dest w old Hfuel Hold; [lia|].
  simpl. unfold slice_to, slice_from.
  rewrite slice_bound_nonneg by (unfold DEFAULT_BUF_SIZE; lia).
  destruct (take (Z.to_nat DEFAULT_BUF_SIZE) sf) as [|x chunk] eqn:Htake.
  - apply take_nil_inv in Htake as [H0 | ->];
      [unfold DEFAULT_BUF_SIZE in H0; lia|].
    rewrite app_nil_r, insert_id by exact Hold. destruct w; done.
  - unfold bind, file_write. rewrite Hold.
    assert (Hsf : sf = (x :: chunk) ++ drop (Z.to_nat DEFAULT_BUF_SIZE) sf)
      by (rewrite <- Htake, take_drop; done).
    rewrite (IH _ dest _ (old ++ x :: chunk)).
    + simpl. rewrite insert_insert_eq, <- app_assoc, <- Hsf. done.
    + rewrite Hsf, length_app in Hfuel. simpl in Hfuel. lia.
    + simpl. apply lookup_insert_eq.
Qed.

Local Arguments copy_chunks : simpl never.

(** A download onto a file path whose parent exists: the first member's
    payload becomes the content of the destination. *)
Lemma copy_from_to_file
    (container : Container) (path dest : string) (w : world)
    (data : list bytes) (st : Stat) (m : TarEntry) (ms : list TarEntry) :
  get_archive_response container path = Return (data, st) ->
  _is_reg (st_mode st) = true ->
  tar_decode (concat data) = Some (m :: ms) ->
  (os_path_isdir dest w).1 = Return false ->
  (os_path_isdir (os_path_dirname dest) w).1 = Return true ->
  copy_from container path dest w
    = (Return tt,
       mkWorld (<[dest := File (te_data m)]> (fs w))
         (calls w ++ [GetArchive path (Some DEFAULT_BUF_SIZE); CloseStream])
         (stdout w)).
Proof.
  intros Hresp Hreg Hdec Hdest Hparent.
  unfold os_path_isdir in Hdest, Hparent. simpl in Hdest, Hparent.
  unfold copy_from, bind, get_archive, log_call, try_finally, except_IsADirectoryError,
    stream_close, tarfile_open_r, os_path_isdir, open_wb, raise, ret.
  simpl. rewrite Hresp, Hreg. simpl.
  rewrite stream_bytes_init, Hdec. simpl.
  destruct (fs w !! dest) as [[|c]|] eqn:Hd; try discriminate; simpl;
    (destruct (fs w !! os_path_dirname dest) as [[|c']|]; try discriminate);
    simpl; rewrite Hd; simpl;
    (rewrite (copy_chunks_enough _ _ _ _ []);
       [|lia|simpl; apply lookup_insert_eq]);
    simpl; rewrite insert_insert_eq, <- app_assoc; done.
Qed.

(** C7, as the code has it. When the fetch succeeds with a regular-file
    mode and the stream decodes to an archive with a member, a destination
    that is not an existing directory and whose parent is not one either
    makes [copy_from] raise the copy error "Not a directory: <parent>"; the
    local files are as before. *)
Theorem copy_from_missing_parent
    (container : Container) (path dest : string) (w : world)
    (data : list bytes) (st : Stat) (m : TarEntry) (ms : list TarEntry) :
  get_archive_response container path = Return (data, st) ->
  _is_reg (st_mode st) = true ->
  tar_decode (concat data) = Some (m :: ms) ->
  (os_path_isdir dest w).1 = Return false ->
  (os_path_isdir (os_path_dirname dest) w).1 = Return false ->
  copy_from container path dest w
    = (Raise (CopyError ("Not a directory: " +:+ os_path_dirname dest)),
       after_calls w [GetArchive path (Some DEFAULT_BUF_SIZE); CloseStream]).
Proof.
  intros Hresp Hreg Hdec Hdest Hparent.
  unfold os_path_isdir in Hdest, Hparent. simpl in Hdest, Hparent.
  unfold copy_from, bind, get_archive, log_call, try_finally,
    except_IsADirectoryError, stream_close, tarfile_open_r, os_path_isdir,
    raise, ret, after_calls.
  simpl. rewrite Hresp, Hreg. simpl.
  rewrite stream_bytes_init, Hdec. simpl.
  destruct (fs w !! dest) as [[|c]|]; try discriminate; simpl;
    destruct (fs w !! os_path_dirname dest) as [[|c']|]; try discriminate;
    simpl; rewrite <- app_assoc; done.
Qed.

End Download.

(** The test suite's case: fetching the directory [/etc]. *)
Lemma copy_from_only_regular_files_witness :
  get_archive_response test_container "/etc"
    = Return ([b_ "etc"], mkStat (Z.lor MODE_DIR 493)) /\
  any_bit_set special_bits (Z.lor MODE_DIR 493) = true /\
  copy_from (codec := example_codec) test_container "/etc" "/tmp/test/fr" test_world
    = (Raise (CopyError "Only regular files are supported"),
       after_calls test_world
         [GetArchive "/etc" (Some DEFAULT_BUF_SIZE); CloseStream]).
Proof.
  assert (Hresp : get_archive_response test_container "/etc"
                  = Return ([b_ "etc"], mkStat (Z.lor MODE_DIR 493)))
    by reflexivity.
  assert (Hany : any_bit_set special_bits (Z.lor MODE_DIR 493) = true)
    by reflexivity.
  split; [exact Hresp|]. split; [exact Hany|].
  exact (copy_from_only_regular_files (codec := example_codec) test_container
           "/etc" "/tmp/test/fr" test_world _ _ Hresp Hany).
Defined.

(** The test suite's case: [/etc/fedora-release] to [/tmp/test/fr], where
    [/tmp/test] does not exist. *)
Lemma copy_from_missing_parent_witness :
  copy_from (codec := example_codec) test_container "/etc/fedora-release"
    "/tmp/test/fr" test_world
  = (Raise (CopyError "Not a directory: /tmp/test"),
     after_calls test_world
       [GetArchive "/etc/fedora-release" (Some DEFAULT_BUF_SIZE); CloseStream]).
Proof.
  exact (copy_from_missing_parent (codec := example_codec) test_container
           "/etc/fedora-release" "/tmp/test/fr" test_world
           [fedora_release] (mkStat 420)
           (mkEntry "fedora-release" (concat [fedora_release])) []
           eq_refl eq_refl eq_refl eq_refl eq_refl).
Defined.

(** C7, as stated, fails. With [/tmp/test] missing and the directory [/etc]
    as the path to fetch, the destination is not a directory and neither is
    its parent, and the error raised is "Only regular files are supported",
    not the one that names the parent. *)
Lemma copy_from_missing_parent_other_error :
  (os_path_isdir "/tmp/test/fr" test_world).1 = Return false /\
  (os_path_isdir (os_path_dirname "/tmp/test/fr") test_world).1
    = Return false /\
  (copy_from (codec := example_codec) test_container "/etc" "/tmp/test/fr"
     test_world).1
    = Raise (CopyError "Only regular files are supported") /\
  (copy_from (codec := example_codec) test_container "/etc" "/tmp/test/fr"
     test_world).1
    <> Raise (CopyError
               ("Not a directory: " +:+ os_path_dirname "/tmp/test/fr")).
Proof.
  split; [reflexivity|]. split; [reflexivity|].
  split; [reflexivity|]. discriminate.
Qed.

(** ** Upload *)

Section Upload.

Context {codec : TarCodec}.

Lemma copy_to_stat_fails
    (container : Container) (path src : string) (w : world)
    (content : bytes) (msg : string) :
  fs w !! src = Some (File content) ->
  get_archive_response container path = Raise (APIError msg) ->
  copy_to container path src w
    = uploaded container w [GetArchive path None]
        (os_path_dirname path) (os_path_basename path) content.
Proof.
  intros Hsrc Hresp.
  unfold copy_to, bind, os_path_isfile, except_APIError_else, get_stat,
    get_archive, put_archive, file_read, log_call, uploaded, after_calls, ret.
  simpl. rewrite Hsrc, Hresp. simpl. rewrite Hsrc.
  destruct (put_archive_response _ _ _); simpl; rewrite <- app_assoc; done.
Qed.

Lemma copy_to_stat_dir
    (container : Container) (path src : string) (w : world)
    (content : bytes) (data : list bytes) (st : Stat) :
  fs w !! src = Some (File content) ->
  get_archive_response container path = Return (data, st) ->
  _is_dir (st_mode st) = true ->
  copy_to container path src w
    = uploaded container w [GetArchive path None; CloseStream]
        path (os_path_basename src) content.
Proof.
  intros Hsrc Hresp Hdir.
  unfold copy_to, bind, os_path_isfile, except_APIError_else, get_stat,
    get_archive, put_archive, file_read, stream_close, log_call, uploaded,
    after_calls, ret.
  simpl. rewrite Hsrc, Hresp. simpl. rewrite Hdir. simpl. rewrite Hsrc.
  destruct (put_archive_response _ _ _); simpl; rewrite <- !app_assoc; done.
Qed.

Lemma copy_to_stat_reg
    (container : Container) (path src : string) (w : world)
    (content : bytes) (data : list bytes) (st : Stat) :
  fs w !! src = Some (File content) ->
  get_archive_response container path = Return (data, st) ->
  _is_reg (st_mode st) = true ->
  copy_to container path src w
    = uploaded container w [GetArchive path None; CloseStream]
        (os_path_dirname path) (os_path_basename path) content.
Proof.
  intros Hsrc Hresp Hreg.
  pose proof (_is_reg_not_dir _ Hreg) as Hdir.
  unfold copy_to, bind, os_path_isfile, except_APIError_else, get_stat,
    get_archive, put_archive, file_read, stream_close, log_call, uploaded,
    after_calls, ret.
  simpl. rewrite Hsrc, Hresp. simpl. rewrite Hdir, Hreg. simpl. rewrite Hsrc.
  destruct (put_archive_response _ _ _); simpl; rewrite <- !app_assoc; done.
Qed.

(** C3. Upload destination resolution. For a local file [src] holding
    [content] and a container path [path], [copy_to] hands the engine's
    upload call the archive with exactly one entry, [content] under the
    resolved name, targeting the resolved directory, where the resolved
    (directory, name) is (dirname path, basename path) when the stat call
    fails with an engine error, (path, basename src) when it succeeds with a
    directory mode, and (dirname path, basename path) when it succeeds with a
    regular-file mode. *)
Theorem copy_to_destination
    (container : Container) (path src : string) (w : world) (content : bytes) :
  fs w !! src = Some (File content) ->
  (forall msg,
      get_archive_response container path = Raise (APIError msg) ->
      copy_to container path src w
        = uploaded container w [GetArchive path None]
            (os_path_dirname path) (os_path_basename path) content) /\
  (forall data st,
      get_archive_response container path = Return (data, st) ->
      _is_dir (st_mode st) = true ->
      copy_to container path src w
        = uploaded container w [GetArchive path None; CloseStream]
            path (os_path_basename src) content) /\
  (forall data st,
      get_archive_response container path = Return (data, st) ->
      _is_reg (st_mode st) = true ->
      copy_to container path src w
        = uploaded container w [GetArchive path None; CloseStream]
            (os_path_dirname path) (os_path_basename path) content).
Proof.
  intros Hsrc. split; [|split].
  - intros msg. apply copy_to_stat_fails. exact Hsrc.
  - intros data st. apply copy_to_stat_dir. exact Hsrc.
  - intros data st. apply copy_to_stat_reg. exact Hsrc.
Qed.

(** C8. Upload copy-policy errors. When the local source is not an existing
    regular file, [copy_to] raises the copy error "Not a file: <src>" and the
    world is as before: the engine was not called. When the source is a file
    and the stat of the destination succeeds with a mode that is neither
    directory nor regular, [copy_to] raises the copy error "Unable to
    overwrite <path>": the engine saw the stat and no upload, and no local
    file changed. *)
Theorem copy_to_policy_errors
    (container : Container) (path src : string) (w : world) :
  ((os_path_isfile src w).1 = Return false ->
   copy_to container path src w
     = (Raise (CopyError ("Not a file: " +:+ src)), w)) /\
  (forall data st,
      (os_path_isfile src w).1 = Return true ->
      get_archive_response container path = Return (data, st) ->
      _is_dir (st_mode st) = false ->
      _is_reg (st_mode st) = false ->
      copy_to container path src w
        = (Raise (CopyError ("Unable to overwrite " +:+ path)),
           after_calls w [GetArchive path None; CloseStream])).
Proof.
  split.
  - intros Hfile. unfold os_path_isfile in Hfile. simpl in Hfile.
    unfold copy_to, bind, os_path_isfile, raise. simpl.
    destruct (fs w !! src) as [[|c]|]; try discriminate; done.
  - intros data st Hfile Hresp Hdir Hreg.
    unfold os_path_isfile in Hfile. simpl in Hfile.
    unfold copy_to, bind, os_path_isfile, except_APIError_else, get_stat,
      get_archive, stream_close, log_call, after_calls, raise, ret.
    simpl. destruct (fs w !! src) as [[|c]|]; try discriminate.
    simpl. rewrite Hresp. simpl. rewrite Hdir, Hreg. simpl.
    rewrite <- app_assoc. done.
Qed.

End Upload.

(** The uploads of the test suite's [src1]: to a path that does not exist in
    the container, to a directory, and onto an existing regular file. *)
Lemma copy_to_destination_witness :
  copy_to (codec := example_codec) test_container "/tmp/test-copy-to/new"
      "/tmp/src1" test_world
    = uploaded (codec := example_codec) test_container test_world
        [GetArchive "/tmp/test-copy-to/new" None]
        "/tmp/test-copy-to" "new" (b_ "source1") /\
  copy_to (codec := example_codec) test_container "/tmp/test-copy-to"
      "/tmp/src1" test_world
    = uploaded (codec := example_codec) test_container test_world
        [GetArchive "/tmp/test-copy-to" None; CloseStream]
        "/tmp/test-copy-to" "src1" (b_ "source1") /\
  copy_to (codec := example_codec) test_container "/etc/fedora-release"
      "/tmp/src1" test_world
    = uploaded (codec := example_codec) test_container test_world
        [GetArchive "/etc/fedora-release" None; CloseStream]
        "/etc" "fedora-release" (b_ "source1").
Proof.
  assert (Hsrc : fs test_world !! "/tmp/src1" = Some (File (b_ "source1")))
    by reflexivity.
  split; [|split].
  - destruct (copy_to_destination (codec := example_codec) test_container
                "/tmp/test-copy-to/new" "/tmp/src1" test_world _ Hsrc)
      as (Hfail & _ & _).
    exact (Hfail "404 Client Error: Not Found" eq_refl).
  - destruct (copy_to_destination (codec := example_codec) test_container
                "/tmp/test-copy-to" "/tmp/src1" test_world _ Hsrc)
      as (_ & Hdir & _).
    exact (Hdir [] (mkStat (Z.lor MODE_DIR 493)) eq_refl eq_refl).
  - destruct (copy_to_destination (codec := example_codec) test_container
                "/etc/fedora-release" "/tmp/src1" test_world _ Hsrc)
      as (_ & _ & Hreg).
    exact (Hreg [fedora_release] (mkStat 420) eq_refl eq_refl).
Defined.

(** An upload of a local path that does not exist, and an upload onto the
    symbolic link [/dev/stdout]. *)
Lemma copy_to_policy_errors_witness :
  copy_to (codec := example_codec) test_container "/tmp/test-copy-to"
      "/tmp/missing" test_world
    = (Raise (CopyError "Not a file: /tmp/missing"), test_world) /\
  copy_to (codec := example_codec) test_container "/dev/stdout"
      "/tmp/src1" test_world
    = (Raise (CopyError "Unable to overwrite /dev/stdout"),
       after_calls test_world [GetArchive "/dev/stdout" None; CloseStream]).
Proof.
  split.
  - destruct (copy_to_policy_errors (codec := example_codec) test_container
                "/tmp/test-copy-to" "/tmp/missing" test_world) as [Hsrc _].
    exact (Hsrc eq_refl).
  - destruct (copy_to_policy_errors (codec := example_codec) test_container
                "/dev/stdout" "/tmp/src1" test_world) as [_ Hdst].
    exact (Hdst [] (mkStat (Z.lor MODE_SYMLINK 511))
             eq_refl eq_refl eq_refl eq_refl).
Defined.

(** ** The driver *)

Section Driver.

Context {codec : TarCodec}.

Lemma str_contains_app (sep : ascii) (name rest : string) :
  str_contains sep (name +:+ String sep rest) = true.
Proof.
  induction name as [|c name IH]; simpl.
  - rewrite Ascii.eqb_refl. done.
  - rewrite IH. apply orb_true_r.
Qed.

Lemma split_first_app (sep : ascii) (name rest : string) :
  str_contains sep name = false ->
  split_first sep (name +:+ String sep rest) = Some (name, rest).
Proof.
  induction name as [|c name IH]; simpl; intros Hname.
  - rewrite Ascii.eqb_refl. done.
  - apply orb_false_iff in Hname as [Hc Hname].
    rewrite Hc, (IH Hname). done.
Qed.

(** A string with a separator is a separator-free prefix, the separator,
    and a rest. *)
Lemma str_contains_split (sep : ascii) (s : string) :
  str_contains sep s = true ->
  exists name rest,
    s = name +:+ String sep rest /\ str_contains sep name = false.
Proof.
  induction s as [|c s IH]; simpl; intros Hs; [discriminate|].
  destruct (Ascii.eqb c sep) eqn:Hc.
  - apply Ascii.eqb_eq in Hc. subst c.
    exists EmptyString, s. done.
  - destruct (IH Hs) as (name & rest & -> & Hname).
    exists (String c name), rest. simpl. rewrite Hc, Hname. done.
Qed.

(** Printing leaves the engine alone. *)
Lemma print_then_ret (msg : string) (code : Z) (w : world) :
  (print msg >> ret code) w
    = (Return code, mkWorld (fs w) (calls w) (stdout w ++ [msg])).
Proof. reflexivity. Qed.

(** The two handlers and the final [return 0]. *)
Lemma copy_run_result (docker : Docker)
    (action : Container -> string -> string -> M unit)
    (name cpath local : string) (w : world) :
  match (copy_attempt docker action name cpath local w).1 with
  | Return _ => (copy_run docker action name cpath local w).1 = Return 0
  | Raise (APIError _) | Raise (CopyError _) =>
      (copy_run docker action name cpath local w).1 = Return 2
  | Raise e => (copy_run docker action name cpath local w).1 = Raise e
  end.
Proof.
  unfold copy_run.
  destruct (copy_attempt docker action name cpath local w) as [[u|[]] w'];
    done.
Qed.

Lemma copy_download (docker : Docker) (b : Z) (name cpath dst : string) :
  0 < b ->
  str_contains SEP name = false ->
  str_contains SEP dst = false ->
  copy docker (mkArgs b (name +:+ String SEP cpath) dst)
    = copy_run docker copy_from name cpath dst.
Proof.
  intros Hb Hname Hdst. unfold copy. simpl.
  replace (b <=? 0) with false by (symmetry; apply Z.leb_gt; lia).
  rewrite str_contains_app, Hdst. simpl.
  unfold str_split_max1. rewrite split_first_app by exact Hname. done.
Qed.

Lemma copy_upload (docker : Docker) (b : Z) (name cpath src : string) :
  0 < b ->
  str_contains SEP name = false ->
  str_contains SEP src = false ->
  copy docker (mkArgs b src (name +:+ String SEP cpath))
    = copy_run docker copy_to name cpath src.
Proof.
  intros Hb Hname Hsrc. unfold copy. simpl.
  replace (b <=? 0) with false by (symmetry; apply Z.leb_gt; lia).
  rewrite str_contains_app, Hsrc. simpl.
  unfold str_split_max1. rewrite split_first_app by exact Hname. done.
Qed.

(** The buffer length is checked and not used: two positive values give
    the same run. *)
Lemma copy_buffer_length_unused (docker : Docker) (b1 b2 : Z)
    (src dst : string) :
  0 < b1 -> 0 < b2 ->
  copy docker (mkArgs b1 src dst) = copy docker (mkArgs b2 src dst).
Proof.
  intros Hb1 Hb2. unfold copy. simpl.
  replace (b1 <=? 0) with false by (symmetry; apply Z.leb_gt; lia).
  replace (b2 <=? 0) with false by (symmetry; apply Z.leb_gt; lia).
  done.
Qed.

(** C10. A container-addressed argument, one with a separator, is split at
    its first separator only: the container name is the text before it, free
    of separators, and the in-container path is everything after it, further
    separators included; the driver runs the transfer with that name and that
    path, in either direction. *)
Theorem copy_splits_at_first_sep
    (docker : Docker) (b : Z) (addressed other : string) :
  0 < b ->
  str_contains SEP addressed = true ->
  str_contains SEP other = false ->
  exists container_name container_path,
    addressed = container_name +:+ String SEP container_path /\
    str_contains SEP container_name = false /\
    copy docker (mkArgs b addressed other)
      = copy_run docker copy_from container_name container_path other /\
    copy docker (mkArgs b other addressed)
      = copy_run docker copy_to container_name container_path other.
Proof.
  intros Hb Haddr Hother.
  destruct (str_contains_split SEP addressed Haddr)
    as (name & cpath & -> & Hname).
  exists name, cpath. split; [done|]. split; [exact Hname|]. split.
  - apply copy_download; assumption.
  - apply copy_upload; assumption.
Qed.

(** C9. CLI result mapping. [copy] returns 1 and leaves the engine's call
    log as it was when the buffer length is not positive, and when neither
    or both of source and destination contain the separator. Otherwise, with
    the operation resolved from the addressed side, [copy] returns 0 when
    the attempt returns, 2 when it raises an engine API error or a copy
    error, and raises the attempt's exception when it is any other. *)
Theorem copy_result_mapping (docker : Docker) (args : Args) (w : world) :
  (buffer_length args <= 0 ->
   (copy docker args w).1 = Return 1 /\
   calls (copy docker args w).2 = calls w) /\
  (str_contains SEP (source args) = str_contains SEP (destination args) ->
   (copy docker args w).1 = Return 1 /\
   calls (copy docker args w).2 = calls w) /\
  (0 < buffer_length args ->
   forall action container_name container_path local_path,
     (str_contains SEP (source args) = true /\
      str_contains SEP (destination args) = false /\
      split_first SEP (source args) = Some (container_name, container_path) /\
      local_path = destination args /\ action = copy_from)
     \/
     (str_contains SEP (destination args) = true /\
      str_contains SEP (source args) = false /\
      split_first SEP (destination args)
        = Some (container_name, container_path) /\
      local_path = source args /\ action = copy_to) ->
     match (copy_attempt docker action container_name container_path
              local_path w).1 with
     | Return _ => (copy docker args w).1 = Return 0
     | Raise (APIError _) | Raise (CopyError _) =>
         (copy docker args w).1 = Return 2
     | Raise e => (copy docker args w).1 = Raise e
     end).
Proof.
  split; [|split].
  - intros Hb. unfold copy.
    replace (buffer_length args <=? 0) with true
      by (symmetry; apply Z.leb_le; lia).
    rewrite print_then_ret. done.
  - intros Hsame. unfold copy.
    destruct (buffer_length args <=? 0); [rewrite print_then_ret; done|].
    rewrite Hsame.
    destruct (str_contains SEP (destination args)); done.
  - intros Hb action name cpath local Hdir.
    assert (Hrun : copy docker args w
                   = copy_run docker action name cpath local w).
    { unfold copy.
      replace (buffer_length args <=? 0) with false
        by (symmetry; apply Z.leb_gt; lia).
      unfold str_split_max1.
      destruct Hdir as [(Hs & Hd & Hsplit & -> & ->)
                       |(Hd & Hs & Hsplit & -> & ->)];
        rewrite Hs, Hd, Hsplit; done. }
    rewrite Hrun. apply copy_run_result.
Qed.

End Driver.

(** A container-addressed argument whose path has a separator of its own. *)
Lemma copy_splits_at_first_sep_witness :
  exists container_name container_path,
    "test:/data/a:b" = container_name +:+ String SEP container_path /\
    str_contains SEP container_name = false /\
    copy (codec := example_codec) test_docker (mkArgs 2 "test:/data/a:b" "/tmp")
      = copy_run test_docker (copy_from (codec := example_codec)) container_name container_path "/tmp" /\
    copy (codec := example_codec) test_docker (mkArgs 2 "/tmp" "test:/data/a:b")
      = copy_run test_docker (copy_to (codec := example_codec)) container_name container_path "/tmp".
Proof.
  apply (copy_splits_at_first_sep (codec := example_codec) test_docker 2
           "test:/data/a:b" "/tmp"); [lia | reflexivity | reflexivity].
Defined.

(** The name and the path of that argument. *)
Example copy_colon_in_path :
  copy (codec := example_codec) test_docker (mkArgs 2 "test:/data/a:b" "/tmp")
    = copy_run test_docker (copy_from (codec := example_codec)) "test" "/data/a:b" "/tmp".
Proof.
  apply (copy_download (codec := example_codec) test_docker 2 "test"
           "/data/a:b" "/tmp"); [lia | reflexivity | reflexivity].
Qed.

(** The rows of [test_copy], and one invocation for each way the attempt can
    end: a missing path, a directory to fetch, a client that cannot be built. *)
Lemma copy_result_mapping_witness :
  (copy (codec := example_codec) test_docker
     (mkArgs (-2) "/etc/system-release" "test:/tmp") test_world).1 = Return 1 /\
  (copy (codec := example_codec) test_docker
     (mkArgs 2 "/etc/system-release" "/tmp") test_world).1 = Return 1 /\
  (copy (codec := example_codec) test_docker
     (mkArgs 2 "test1:/etc/system-release" "test2:/tmp") test_world).1
    = Return 1 /\
  (copy (codec := example_codec) test_docker
     (mkArgs 2 "test:/etc/fedora-release" "/tmp") test_world).1 = Return 0 /\
  (copy (codec := example_codec) test_docker
     (mkArgs 2 "/tmp/src1" "test:/tmp/test-copy-to") test_world).1
    = Return 0 /\
  (copy (codec := example_codec) test_docker
     (mkArgs 2 "test:/etc/nonexistent" "/tmp") test_world).1 = Return 2 /\
  (copy (codec := example_codec) test_docker
     (mkArgs 2 "test:/etc" "/tmp") test_world).1 = Return 2 /\
  (copy (codec := example_codec) broken_docker
     (mkArgs 2 "test:/etc/fedora-release" "/tmp") test_world).1
    = Raise (OtherError "DockerException").
Proof.
  refine (conj _ (conj _ (conj _ (conj _ (conj _ (conj _ (conj _ _))))))).
  - destruct (copy_result_mapping (codec := example_codec) test_docker
                (mkArgs (-2) "/etc/system-release" "test:/tmp") test_world)
      as (Hlen & _ & _).
    apply Hlen. simpl. lia.
  - destruct (copy_result_mapping (codec := example_codec) test_docker
                (mkArgs 2 "/etc/system-release" "/tmp") test_world)
      as (_ & Hform & _).
    apply Hform. reflexivity.
  - destruct (copy_result_mapping (codec := example_codec) test_docker
                (mkArgs 2 "test1:/etc/system-release" "test2:/tmp") test_world)
      as (_ & Hform & _).
    apply Hform. reflexivity.
  - destruct (copy_result_mapping (codec := example_codec) test_docker
                (mkArgs 2 "test:/etc/fedora-release" "/tmp") test_world)
      as (_ & _ & Hrun).
    exact (Hrun ltac:(simpl; lia) (copy_from (codec := example_codec)) "test" "/etc/fedora-release" "/tmp"
             (or_introl (conj eq_refl (conj eq_refl (conj eq_refl
                (conj eq_refl eq_refl)))))).
  - destruct (copy_result_mapping (codec := example_codec) test_docker
                (mkArgs 2 "/tmp/src1" "test:/tmp/test-copy-to") test_world)
      as (_ & _ & Hrun).
    exact (Hrun ltac:(simpl; lia) (copy_to (codec := example_codec)) "test" "/tmp/test-copy-to"
             "/tmp/src1"
             (or_intror (conj eq_refl (conj eq_refl (conj eq_refl
                (conj eq_refl eq_refl)))))).
  - destruct (copy_result_mapping (codec := example_codec) test_docker
                (mkArgs 2 "test:/etc/nonexistent" "/tmp") test_world)
      as (_ & _ & Hrun).
    exact (Hrun ltac:(simpl; lia) (copy_from (codec := example_codec)) "test" "/etc/nonexistent" "/tmp"
             (or_introl (conj eq_refl (conj eq_refl (conj eq_refl
                (conj eq_refl eq_refl)))))).
  - destruct (copy_result_mapping (codec := example_codec) test_docker
                (mkArgs 2 "test:/etc" "/tmp") test_world)
      as (_ & _ & Hrun).
    exact (Hrun ltac:(simpl; lia) (copy_from (codec := example_codec)) "test" "/etc" "/tmp"
             (or_introl (conj eq_refl (conj eq_refl (conj eq_refl
                (conj eq_refl eq_refl)))))).
  - destruct (copy_result_mapping (codec := example_codec) broken_docker
                (mkArgs 2 "test:/etc/fedora-release" "/tmp") test_world)
      as (_ & _ & Hrun).
    exact (Hrun ltac:(simpl; lia) (copy_from (codec := example_codec)) "test" "/etc/fedora-release" "/tmp"
             (or_introl (conj eq_refl (conj eq_refl (conj eq_refl
                (conj eq_refl eq_refl)))))).
Defined.

(** C2, on the code. The first row of [test_copy], a download with the
    buffer length 2: the archive is fetched with the chunk size
    [DEFAULT_BUF_SIZE], which is 1024 and not the buffer length asked for,
    and the file arrives in the destination directory. *)
Theorem copy_download_chunk_size_is_default :
  let args := mkArgs 2 "test:/etc/fedora-release" "/tmp" in
  let out := copy (codec := example_codec) test_docker args test_world in
  out.1 = Return 0 /\
  calls out.2
    = [FromEnv; ContainersGet "test";
       GetArchive "/etc/fedora-release" (Some 1024); CloseStream] /\
  Some 1024 <> Some (buffer_length args) /\
  fs out.2 !! "/tmp/fedora-release" = Some (File fedora_release).
Proof.
  cbv zeta. split; [reflexivity|]. split; [reflexivity|].
  split; [discriminate|]. reflexivity.
Qed.

(** ** The cases of [test_copy_from] *)

(** The destination directory holds a directory named as the member. *)
Example copy_from_destination_is_a_directory :
  let w := mkWorld (<["/tmp/fedora-release" := Dir]> (fs test_world)) [] [] in
  (copy_from (codec := example_codec) test_container "/etc/fedora-release"
     "/tmp" w).1
    = Raise (CopyError "Destination is a directory").
Proof. reflexivity. Qed.

(** A path that does not exist in the container. *)
Example copy_from_nonexistent :
  (copy_from (codec := example_codec) test_container "/etc/nonexistent"
     "/tmp" test_world).1
    = Raise (APIError "404 Client Error: Not Found").
Proof. reflexivity. Qed.

(** Into a directory, and onto a file path. *)
Example copy_from_into_directory :
  fs (copy_from (codec := example_codec) test_container "/etc/fedora-release"
        "/tmp" test_world).2 !! "/tmp/fedora-release"
    = Some (File fedora_release).
Proof. reflexivity. Qed.

Example copy_from_onto_file_path :
  fs (copy_from (codec := example_codec) test_container "/etc/fedora-release"
        "/tmp/tr" test_world).2 !! "/tmp/tr"
    = Some (File fedora_release).
Proof. reflexivity. Qed.

(** ** More on the mode bits *)

Section ModeClasses.

Lemma any_bit_set_special (m : Z) :
  any_bit_set special_bits m
    = Z.testbit m BIT_DIR || any_bit_set other_special_bits m.
Proof. reflexivity. Qed.

(** X1. The modes an upload refuses to overwrite, those that are neither
    directory nor regular for the code, are the modes with the directory bit
    clear and one of the other six special bits set; and no mode is both
    directory and regular. *)
Theorem rejected_modes (m : Z) :
  (_is_dir m = false /\ _is_reg m = false <->
   Z.testbit m BIT_DIR = false /\ any_bit_set other_special_bits m = true) /\
  (_is_dir m = true -> _is_reg m = false).
Proof.
  rewrite _is_dir_spec.
  assert (Hreg : _is_reg m = negb (any_bit_set special_bits m)).
  { destruct (_is_reg m) eqn:E.
    - apply _is_reg_spec in E. rewrite E. done.
    - destruct (any_bit_set special_bits m) eqn:E'; [done|].
      apply _is_reg_spec in E'. congruence. }
  rewrite Hreg, any_bit_set_special.
  destruct (Z.testbit m BIT_DIR), (any_bit_set other_special_bits m);
    simpl; split; try tauto; try (intros; done);
    split; intros [? ?]; try done.
Qed.

(** X2. The two classifications read the seven special bits and nothing
    else: modes that agree on those bits, whatever their permission bits and
    other flags, are classified alike. *)
Theorem classification_reads_special_bits_only (m m' : Z) :
  same_special_bits m m' = true ->
  _is_dir m = _is_dir m' /\ _is_reg m = _is_reg m'.
Proof.
  intros Hsame. unfold same_special_bits in Hsame.
  rewrite forallb_forall in Hsame.
  assert (Hbits : forall b, b ∈ special_bits -> Z.testbit m b = Z.testbit m' b).
  { intros b Hb. apply Bool.eqb_prop, Hsame, list_elem_of_In, Hb. }
  split.
  - rewrite !_is_dir_spec. apply Hbits. left.
  - assert (Hany : any_bit_set special_bits m = any_bit_set special_bits m').
    { unfold any_bit_set. clear Hsame.
      induction special_bits as [|b bs IH]; simpl; [done|].
      rewrite (Hbits b) by left. rewrite IH; [done|].
      intros b' Hb'. apply Hbits. right. exact Hb'. }
    destruct (_is_reg m) eqn:E, (_is_reg m') eqn:E'; try done.
    + apply _is_reg_spec in E. rewrite Hany in E.
      apply _is_reg_spec in E. congruence.
    + apply _is_reg_spec in E'. rewrite <- Hany in E'.
      apply _is_reg_spec in E'. congruence.
Qed.

End ModeClasses.

(** A directory with mode 0755 and the same with the sticky and the
    temporary flag of the ported layout. *)
Lemma classification_reads_special_bits_only_witness :
  same_special_bits (Z.lor MODE_DIR 493)
    (Z.lor (Z.lor MODE_DIR (Z.shiftl 1 20 - 1)) (Z.shiftl 1 23)) = true /\
  _is_dir (Z.lor MODE_DIR 493)
    = _is_dir (Z.lor (Z.lor MODE_DIR (Z.shiftl 1 20 - 1)) (Z.shiftl 1 23)) /\
  _is_reg (Z.lor MODE_DIR 493)
    = _is_reg (Z.lor (Z.lor MODE_DIR (Z.shiftl 1 20 - 1)) (Z.shiftl 1 23)).
Proof.
  split; [reflexivity|].
  exact (classification_reads_special_bits_only (Z.lor MODE_DIR 493)
           (Z.lor (Z.lor MODE_DIR (Z.shiftl 1 20 - 1)) (Z.shiftl 1 23))
           eq_refl).
Defined.

(** A symbolic link is refused; a directory that is also a symbolic link is
    a directory for the code. *)
Lemma rejected_modes_witness :
  (_is_dir (Z.lor MODE_SYMLINK 511) = false /\
   _is_reg (Z.lor MODE_SYMLINK 511) = false) /\
  _is_reg mode_dir_symlink = false.
Proof.
  split.
  - destruct (rejected_modes (Z.lor MODE_SYMLINK 511)) as [[_ Hrej] _].
    apply Hrej. split; reflexivity.
  - destruct (rejected_modes mode_dir_symlink) as [_ Hdir].
    apply Hdir. reflexivity.
Defined.

(** ** More on the adapter *)

Section AdapterReads.

Import _Reader.

Implicit Types (b rv buf data : bytes) (n : Z) (self : t).

Lemma length_slice_to_nonneg data n :
  0 <= n -> length (slice_to data n) = Nat.min (Z.to_nat n) (length data).
Proof.
  intros Hn. unfold slice_to. rewrite slice_bound_nonneg, length_take by lia.
  done.
Qed.

(** The loop stops pulling as soon as [n] bytes are gathered. *)
Lemma read_loop_lazy (generator : list bytes) :
  forall n rv buf,
  exists k : nat,
    (k <= length generator)%nat /\
    _generator (read_loop n generator rv buf).2 = drop k generator /\
    forall k' : nat,
      (k' < k)%nat ->
      Z.of_nat (length (rv ++ concat (take k' generator))) < n.
Proof.
  induction generator as [|data generator IH]; intros n rv buf.
  - exists 0%nat. simpl. destruct (Z.of_nat (length rv) <? n); simpl;
      (split; [lia|]; split; [done|]; intros; lia).
  - simpl. destruct (Z.of_nat (length rv) <? n) eqn:Hlt.
    + apply Z.ltb_lt in Hlt.
      set (k0 := n - Z.of_nat (length rv)).
      destruct (IH n (rv ++ buf ++ slice_to data k0) (slice_from data k0))
        as (k & Hk & Hgen & Hmin).
      exists (S k). split; [simpl; lia|]. split; [exact Hgen|].
      intros [|j] Hj.
      * simpl. rewrite app_nil_r. exact Hlt.
      * specialize (Hmin j ltac:(lia)).
        rewrite !length_app, length_slice_to_nonneg in Hmin by lia.
        simpl. rewrite !length_app. lia.
    + exists 0%nat. simpl. split; [lia|]. split; [done|]. intros; lia.
Qed.

(** X3. A read of [0 <= n] bytes returns the first [n] bytes that remain,
    or all of them when fewer remain: never more than [n] bytes, and fewer
    only when the source is exhausted by the read. *)
Theorem read_returns_first_bytes self n :
  0 <= n ->
  (read self n).1 = take (Z.to_nat n) (remaining self) /\
  length (read self n).1 = Nat.min (Z.to_nat n) (length (remaining self)) /\
  (Z.of_nat (length (read self n).1) < n -> remaining (read self n).2 = []).
Proof.
  intros Hn. destruct (read_spec self n Hn) as [Hrv Hrem].
  split; [exact Hrv|]. split.
  - rewrite Hrv. apply length_take.
  - rewrite Hrv, Hrem, length_take. intros Hshort. apply drop_ge. lia.
Qed.

(** X4. A read pulls no more chunks than it needs: the chunks pulled are a
    prefix of those the source had left, and with any chunk fewer the buffer
    and the chunks pulled hold fewer than [n] bytes. *)
Theorem read_pulls_no_more_than_needed self n :
  let k := pulled self (read self n).2 in
  _generator (read self n).2 = drop k (_generator self) /\
  forall k' : nat,
    (k' < k)%nat ->
    Z.of_nat (length (_buf self ++ concat (take k' (_generator self)))) < n.
Proof.
  intros k. subst k. unfold pulled, read.
  destruct (Z.of_nat (length (_buf self)) >=? n).
  - simpl. rewrite Nat.sub_diag. split; [done|]. intros; lia.
  - destruct (read_loop_lazy (_generator self) n (_buf self) [])
      as (k & Hk & Hgen & Hmin).
    rewrite Hgen, length_drop.
    replace (length (_generator self) - (length (_generator self) - k))%nat
      with k by lia.
    split; [done | exact Hmin].
Qed.

(** X5. Reads compose: a read of [a] bytes followed by a read of [b] bytes
    returns, together, what one read of [a + b] bytes returns, and leaves the
    same bytes to come. *)
Theorem read_then_read self (a b : Z) :
  0 <= a -> 0 <= b ->
  (read self a).1 ++ (read (read self a).2 b).1 = (read self (a + b)).1 /\
  remaining (read (read self a).2 b).2 = remaining (read self (a + b)).2.
Proof.
  intros Ha Hb.
  destruct (read_spec self a Ha) as [Ha1 Ha2].
  destruct (read_spec (read self a).2 b Hb) as [Hb1 Hb2].
  destruct (read_spec self (a + b) ltac:(lia)) as [Hab1 Hab2].
  rewrite Ha1, Hb1, Hb2, Ha2, Hab1, Hab2, Z2Nat.inj_add by lia.
  rewrite take_take_drop, drop_drop. done.
Qed.

(** X6. A negative size never reaches the source: the read returns the
    residual buffer without its last [-n] bytes, keeps those, and pulls no
    chunk; on a fresh adapter it returns the empty byte string. *)
Theorem read_negative self n :
  n < 0 ->
  (read self n).1
    = take (length (_buf self) - Z.to_nat (- n)) (_buf self) /\
  _buf (read self n).2
    = drop (length (_buf self) - Z.to_nat (- n)) (_buf self) /\
  _generator (read self n).2 = _generator self /\
  (_buf self = [] -> read self n = ([], self)).
Proof.
  intros Hn. unfold read.
  replace (Z.of_nat (length (_buf self)) >=? n) with true
    by (symmetry; apply Z.geb_ge; lia).
  unfold slice_to, slice_from, slice_bound.
  replace (n <? 0) with true by (symmetry; apply Z.ltb_lt; lia).
  replace (Z.to_nat (Z.max 0 (Z.of_nat (length (_buf self)) + n)))
    with (length (_buf self) - Z.to_nat (- n))%nat by lia.
  simpl. split; [done|]. split; [done|]. split; [done|].
  intros Hbuf. destruct self as [g bf]. simpl in *. subst bf. done.
Qed.

End AdapterReads.

(** Four bytes from a fresh adapter over [mock_generator], and seven asked
    for when one is left. *)
Lemma read_returns_first_bytes_witness :
  (_Reader.read (_Reader.init mock_generator) 4).1 = b_ "abca" /\
  _Reader.remaining
    (_Reader.read
       (_Reader.reads (_Reader.init mock_generator) [1; 2; 4; 7]).2 7).2 = [].
Proof.
  split.
  - destruct (read_returns_first_bytes (_Reader.init mock_generator) 4)
      as (Hrv & _ & _); [lia|].
    rewrite Hrv. reflexivity.
  - destruct (read_returns_first_bytes
                (_Reader.reads (_Reader.init mock_generator) [1; 2; 4; 7]).2 7)
      as (_ & _ & Hshort); [lia|].
    apply Hshort. vm_compute. reflexivity.
Defined.

(** Four bytes from a fresh adapter take two chunks of three; one chunk
    would hold three bytes only. *)
Lemma read_pulls_no_more_than_needed_witness :
  pulled (_Reader.init mock_generator)
    (_Reader.read (_Reader.init mock_generator) 4).2 = 2%nat /\
  Z.of_nat (length (_Reader._buf (_Reader.init mock_generator)
                    ++ concat (take 1 mock_generator))) < 4.
Proof.
  split; [reflexivity|].
  pose proof (read_pulls_no_more_than_needed
                (_Reader.init mock_generator) 4) as Hlazy.
  cbv zeta in Hlazy. destruct Hlazy as [_ Hmin].
  apply (Hmin 1%nat). vm_compute. lia.
Defined.

(** One byte, then two, against three at once. *)
Lemma read_then_read_witness :
  (_Reader.read (_Reader.init mock_generator) 1).1
    ++ (_Reader.read (_Reader.read (_Reader.init mock_generator) 1).2 2).1
  = (_Reader.read (_Reader.init mock_generator) (1 + 2)).1.
Proof.
  destruct (read_then_read (_Reader.init mock_generator) 1 2) as [Hrv _];
    [lia | lia | exact Hrv].
Defined.

(** With [bc] in the buffer a read of size -1 returns [b]. *)
Lemma read_negative_witness :
  (_Reader.read (_Reader.read (_Reader.init mock_generator) 1).2 (-1)).1
    = b_ "b" /\
  _Reader.read (_Reader.init mock_generator) (-1)
    = ([], _Reader.init mock_generator).
Proof.
  split.
  - destruct (read_negative
                (_Reader.read (_Reader.init mock_generator) 1).2 (-1))
      as (Hrv & _); [lia|].
    rewrite Hrv. reflexivity.
  - destruct (read_negative (_Reader.init mock_generator) (-1))
      as (_ & _ & _ & Hfresh); [lia|].
    apply Hfresh. reflexivity.
Defined.

(** ** Reading in blocks of one size *)

Section BlockReads.

Import _Reader.

Lemma sum_replicate (k : nat) (bufsize : Z) :
  foldr Z.add 0 (replicate k bufsize) = Z.of_nat k * bufsize.
Proof. induction k as [|k IH]; simpl; [done | rewrite IH; lia]. Qed.

(** X7. A consumer that reads blocks of one positive size, as the tar
    decoder does with [DEFAULT_BUF_SIZE], receives every byte the adapter
    had yet to return, in order, once its blocks cover them: whatever the
    chunking of the source and whatever the block size. *)
Theorem block_reads_return_everything (self : t) (bufsize : Z) (k : nat) :
  0 < bufsize ->
  Z.of_nat (length (remaining self)) <= Z.of_nat k * bufsize ->
  concat (reads self (replicate k bufsize)).1 = remaining self /\
  remaining (reads self (replicate k bufsize)).2 = [].
Proof.
  intros Hpos Hcover.
  assert (Hall : concat (reads self (replicate k bufsize)).1 = remaining self).
  { rewrite reads_prefix.
    - rewrite sum_replicate. apply take_ge. lia.
    - apply Forall_replicate. lia. }
  split; [exact Hall|].
  pose proof (reads_remaining (replicate k bufsize) self) as Hinv.
  rewrite Hall in Hinv.
  rewrite <- (app_nil_r (remaining self)) in Hinv at 2.
  apply app_inv_head in Hinv. exact Hinv.
Qed.

End BlockReads.

(** Four blocks of four bytes over the five chunks of three. *)
Lemma block_reads_return_everything_witness :
  concat (_Reader.reads (_Reader.init mock_generator) (replicate 4 4)).1
    = concat mock_generator.
Proof.
  destruct (block_reads_return_everything (_Reader.init mock_generator) 4 4)
    as [Hall _]; [lia | vm_compute; congruence | exact Hall].
Defined.

(** ** More on the download *)

Section DownloadPaths.

Context {codec : TarCodec}.

Local Arguments copy_chunks : simpl never.
Local Arguments extractall : simpl never.

Ltac run_copy_from :=
  unfold copy_from, bind, get_archive, log_call, try_finally,
    except_IsADirectoryError, stream_close, tarfile_open_r, os_path_isdir,
    open_wb, raise, ret, after_calls;
  simpl.

Lemma get_archive_run (container : Container) (path : string)
    (chunk_size : option Z) (w : world) :
  get_archive container path chunk_size w
    = (get_archive_response container path,
       after_calls w [GetArchive path chunk_size]).
Proof. reflexivity. Qed.

(** *** What keeps the log *)

Lemma keeps_log_ret {A} (a : A) : keeps_log (ret a).
Proof. intros w. done. Qed.

Lemma keeps_log_raise {A} (e : exn) : keeps_log (@raise A e).
Proof. intros w. done. Qed.

Lemma keeps_log_bind {A B} (m : M A) (k : A -> M B) :
  keeps_log m -> (forall a, keeps_log (k a)) -> keeps_log (bind m k).
Proof.
  intros Hm Hk w. unfold bind. specialize (Hm w).
  destruct (m w) as [[a|e] w']; simpl in *; [|exact Hm].
  destruct (Hk a w') as [Hc Hs]. rewrite Hc, Hs. exact Hm.
Qed.

Lemma keeps_log_except {A} (body handler : M A) :
  keeps_log body -> keeps_log handler ->
  keeps_log (except_IsADirectoryError body handler).
Proof.
  intros Hb Hh w. unfold except_IsADirectoryError. specialize (Hb w).
  destruct (body w) as [[a|[]] w']; simpl in *; try exact Hb.
  destruct (Hh w') as [Hc Hs]. rewrite Hc, Hs. exact Hb.
Qed.

Lemma keeps_log_isdir (p : string) : keeps_log (os_path_isdir p).
Proof. intros w. done. Qed.

Lemma keeps_log_open_wb (p : string) : keeps_log (open_wb p).
Proof. intros w. unfold open_wb. destruct (fs w !! p) as [[|c]|]; done. Qed.

Lemma keeps_log_file_write (p : string) (chunk : bytes) :
  keeps_log (file_write p chunk).
Proof.
  intros w. unfold file_write. destruct (fs w !! p) as [[|c]|]; done.
Qed.

Lemma keeps_log_tarfile_open_r (fileobj : _Reader.t) (bufsize : Z) :
  keeps_log (tarfile_open_r fileobj bufsize).
Proof.
  intros w. unfold tarfile_open_r.
  destruct (stream_bytes fileobj bufsize) as [b|]; [|done].
  destruct (tar_decode b) as [[|m ms]|]; done.
Qed.

Create HintDb keeps_log discriminated.

#[local] Hint Resolve keeps_log_ret keeps_log_raise keeps_log_isdir
  keeps_log_open_wb keeps_log_file_write keeps_log_tarfile_open_r : keeps_log.

Lemma keeps_log_extractall (dest : string) (tf : list TarEntry) :
  keeps_log (extractall tf dest).
Proof.
  induction tf as [|m tf IH]; [apply keeps_log_ret|].
  change (extractall (m :: tf) dest)
    with (open_wb (os_path_join dest (te_name m)) >>
          file_write (os_path_join dest (te_name m)) (te_data m) >>
          extractall tf dest).
  repeat (apply keeps_log_bind; [auto with keeps_log | intros _]).
  exact IH.
Qed.

Lemma keeps_log_copy_chunks (fuel : nat) :
  forall (sf : bytes) (dest : string), keeps_log (copy_chunks fuel sf dest).
Proof.
  induction fuel as [|fuel IH]; intros sf dest; [apply keeps_log_raise|].
  change (copy_chunks (S fuel) sf dest)
    with (match slice_to sf DEFAULT_BUF_SIZE with
          | [] => ret tt
          | chunk =>
              file_write dest chunk >>
              copy_chunks fuel (slice_from sf DEFAULT_BUF_SIZE) dest
          end).
  destruct (slice_to sf DEFAULT_BUF_SIZE) as [|x chunk];
    [apply keeps_log_ret|].
  apply keeps_log_bind; [auto with keeps_log | intros _; apply IH].
Qed.

(** The [try] block of [copy_from] works on the local files only. *)
Lemma keeps_log_copy_from_body (dest : string) (data : list bytes)
    (st : Stat) :
  keeps_log
    (except_IsADirectoryError
       (if negb (_is_reg (st_mode st)) then
          raise (CopyError "Only regular files are supported")
        else
          let* tf := tarfile_open_r (_Reader.init data) DEFAULT_BUF_SIZE in
          let* isd := os_path_isdir dest in
          if isd then extractall tf dest
          else
            let parent := os_path_dirname dest in
            let* isp := os_path_isdir parent in
            if negb isp then raise (CopyError ("Not a directory: " +:+ parent))
            else
              match tf with
              | file_to_extract :: _ =>
                  open_wb dest >>
                  let sf := te_data file_to_extract in
                  copy_chunks (S (length sf)) sf dest
              | [] => raise (OtherError "AttributeError")
              end)
       (raise (CopyError "Destination is a directory"))).
Proof.
  apply keeps_log_except; [|apply keeps_log_raise].
  destruct (negb (_is_reg (st_mode st))); [apply keeps_log_raise|].
  apply keeps_log_bind; [auto with keeps_log | intros tf].
  apply keeps_log_bind; [auto with keeps_log | intros [|]].
  - apply keeps_log_extractall.
  - cbv zeta. apply keeps_log_bind; [auto with keeps_log | intros isp].
    destruct (negb isp); [apply keeps_log_raise|].
    destruct tf as [|m ms]; [apply keeps_log_raise|].
    apply keeps_log_bind; [auto with keeps_log | intros _].
    apply keeps_log_copy_chunks.
Qed.

(** X8. Scoped release. Once the fetch has succeeded, [copy_from] closes the
    stream exactly once and last, whatever becomes of the transfer: the
    engine sees the fetch and the close and nothing else, and nothing is
    printed. *)
Theorem copy_from_closes_the_stream
    (container : Container) (path dest : string) (w : world)
    (data : list bytes) (st : Stat) :
  get_archive_response container path = Return (data, st) ->
  calls (copy_from container path dest w).2
    = calls w ++ [GetArchive path (Some DEFAULT_BUF_SIZE); CloseStream] /\
  stdout (copy_from container path dest w).2 = stdout w.
Proof.
  intros Hresp.
  remember (copy_from container path dest w) as out eqn:Hout.
  unfold copy_from in Hout. unfold bind at 1 in Hout.
  rewrite get_archive_run, Hresp in Hout.
  unfold try_finally, stream_close, log_call in Hout.
  match type of Hout with
  | context [except_IsADirectoryError ?b ?h ?w0] =>
      destruct (keeps_log_copy_from_body dest data st w0) as [Hc Hs];
      destruct (except_IsADirectoryError b h w0) as [r w1]
  end.
  subst out. simpl in *. rewrite Hc, Hs, <- app_assoc. done.
Qed.

(** X9. A failed fetch is passed on as it is: [copy_from] raises the
    engine's own exception, not a copy error, after the one fetch call; no
    stream is closed, since none was opened, and no local file changes. *)
Theorem copy_from_fetch_fails
    (container : Container) (path dest : string) (w : world) (e : exn) :
  get_archive_response container path = Raise e ->
  copy_from container path dest w
    = (Raise e, after_calls w [GetArchive path (Some DEFAULT_BUF_SIZE)]).
Proof.
  intros Hresp. unfold copy_from. unfold bind at 1.
  rewrite get_archive_run, Hresp. done.
Qed.

(** *** Into a directory *)

Lemma extractall_ok (dest : string) (tf : list TarEntry) :
  forall w,
    Forall (fun m => fs w !! os_path_join dest (te_name m) <> Some Dir) tf ->
    extractall tf dest w
      = (Return tt,
         mkWorld (extracted dest tf (fs w)) (calls w) (stdout w)).
Proof.
  induction tf as [|m tf IH]; intros w Htf.
  - destruct w. done.
  - inversion Htf as [|? ? Hm Htf']; subst.
    change (extractall (m :: tf) dest)
      with (open_wb (os_path_join dest (te_name m)) >>
            file_write (os_path_join dest (te_name m)) (te_data m) >>
            extractall tf dest).
    unfold bind, open_wb, file_write.
    set (target := os_path_join dest (te_name m)) in *.
    assert (Hopen : fs w !! target = None \/
                    exists c, fs w !! target = Some (File c)).
    { destruct (fs w !! target) as [[|c]|]; [done | right; eauto | left; done]. }
    assert (Hrest : Forall (fun m' =>
              <[target := File (te_data m)]> (fs w)
                !! os_path_join dest (te_name m') <> Some Dir) tf).
    { eapply Forall_impl; [exact Htf'|]. intros m' Hm'. simpl in Hm'.
      rewrite lookup_insert. case_decide; [done | exact Hm']. }
    destruct Hopen as [Hnone | [c Hfile]].
    + rewrite Hnone. simpl. rewrite lookup_insert_eq. simpl.
      rewrite insert_insert_eq, IH by (simpl; exact Hrest). done.
    + rewrite Hfile. simpl. rewrite lookup_insert_eq. simpl.
      rewrite insert_insert_eq, IH by (simpl; exact Hrest). done.
Qed.

(** X10. A download onto an existing directory writes every member of the
    archive under its own name inside that directory, replacing files of the
    same names, when none of those names is a directory there; it returns
    normally and closes the stream. *)
Theorem copy_from_extracts_into_directory
    (container : Container) (path dest : string) (w : world)
    (data : list bytes) (st : Stat) (m : TarEntry) (ms : list TarEntry) :
  get_archive_response container path = Return (data, st) ->
  _is_reg (st_mode st) = true ->
  tar_decode (concat data) = Some (m :: ms) ->
  (os_path_isdir dest w).1 = Return true ->
  Forall (fun m' => fs w !! os_path_join dest (te_name m') <> Some Dir)
    (m :: ms) ->
  copy_from container path dest w
    = (Return tt,
       mkWorld (extracted dest (m :: ms) (fs w))
         (calls w ++ [GetArchive path (Some DEFAULT_BUF_SIZE); CloseStream])
         (stdout w)).
Proof.
  intros Hresp Hreg Hdec Hdest Hfree.
  unfold os_path_isdir in Hdest. simpl in Hdest.
  run_copy_from. rewrite Hresp, Hreg. simpl.
  rewrite stream_bytes_init, Hdec. simpl.
  destruct (fs w !! dest) as [[|c]|]; try discriminate. simpl.
  rewrite extractall_ok by (simpl; exact Hfree).
  simpl. rewrite <- app_assoc. done.
Qed.

(** X11. A download onto an existing directory in which the first member's
    name is itself a directory raises the copy error "Destination is a
    directory", not the filesystem's own exception; no local file changes
    and the stream is closed. *)
Theorem copy_from_name_is_a_directory
    (container : Container) (path dest : string) (w : world)
    (data : list bytes) (st : Stat) (m : TarEntry) (ms : list TarEntry) :
  get_archive_response container path = Return (data, st) ->
  _is_reg (st_mode st) = true ->
  tar_decode (concat data) = Some (m :: ms) ->
  (os_path_isdir dest w).1 = Return true ->
  (os_path_isdir (os_path_join dest (te_name m)) w).1 = Return true ->
  copy_from container path dest w
    = (Raise (CopyError "Destination is a directory"),
       after_calls w [GetArchive path (Some DEFAULT_BUF_SIZE); CloseStream]).
Proof.
  intros Hresp Hreg Hdec Hdest Hname.
  unfold os_path_isdir in Hdest, Hname. simpl in Hdest, Hname.
  run_copy_from. rewrite Hresp, Hreg. simpl.
  rewrite stream_bytes_init, Hdec. simpl.
  destruct (fs w !! dest) as [[|c]|]; try discriminate. simpl.
  change (extractall (m :: ms) dest)
    with (open_wb (os_path_join dest (te_name m)) >>
          file_write (os_path_join dest (te_name m)) (te_data m) >>
          extractall ms dest).
  unfold bind, open_wb. simpl.
  destruct (fs w !! os_path_join dest (te_name m)) as [[|c]|];
    try discriminate.
  simpl. rewrite <- app_assoc. done.
Qed.

(** *** Onto a file path *)

(** With a destination that is not a directory, the local files end as they
    were or with the destination rewritten. *)
Lemma copy_from_file_path_fs
    (container : Container) (path dest : string) (w : world) :
  (os_path_isdir dest w).1 = Return false ->
  fs (copy_from container path dest w).2 = fs w \/
  exists content,
    (copy_from container path dest w).1 = Return tt /\
    fs (copy_from container path dest w).2
      = <[dest := File content]> (fs w).
Proof.
  intros Hdest. unfold os_path_isdir in Hdest. simpl in Hdest.
  run_copy_from.
  destruct (get_archive_response container path) as [[data st]|e];
    simpl; [|left; done].
  destruct (_is_reg (st_mode st)); simpl; [|left; done].
  rewrite stream_bytes_init.
  destruct (tar_decode (concat data)) as [[|m ms]|]; simpl;
    try (left; done).
  destruct (fs w !! dest) as [[|c]|] eqn:Hd; try discriminate; simpl;
    (destruct (fs w !! os_path_dirname dest) as [[|c']|]; simpl;
     try (left; done));
    rewrite Hd; simpl;
    (rewrite (copy_chunks_enough _ _ _ _ []);
     [|lia|simpl; apply lookup_insert_eq]);
    right; exists (te_data m); simpl; rewrite insert_insert_eq; done.
Qed.

(** X12. A download onto a path that is not an existing directory touches
    no local path but the destination, whatever the engine answers and
    however the transfer ends. *)
Theorem copy_from_touches_only_the_destination
    (container : Container) (path dest : string) (w : world) (p : string) :
  (os_path_isdir dest w).1 = Return false ->
  p <> dest ->
  fs (copy_from container path dest w).2 !! p = fs w !! p.
Proof.
  intros Hdest Hp.
  destruct (copy_from_file_path_fs container path dest w Hdest)
    as [-> | (content & _ & ->)]; [done|].
  apply lookup_insert_ne. congruence.
Qed.

(** X13. A successful download onto a file path whose parent directory
    exists: the destination, created or truncated first, holds exactly the
    payload of the archive's first member; the stream is closed and the
    operation returns normally. *)
Theorem copy_from_writes_the_destination
    (container : Container) (path dest : string) (w : world)
    (data : list bytes) (st : Stat) (m : TarEntry) (ms : list TarEntry) :
  get_archive_response container path = Return (data, st) ->
  _is_reg (st_mode st) = true ->
  tar_decode (concat data) = Some (m :: ms) ->
  (os_path_isdir dest w).1 = Return false ->
  (os_path_isdir (os_path_dirname dest) w).1 = Return true ->
  (copy_from container path dest w).1 = Return tt /\
  fs (copy_from container path dest w).2 !! dest = Some (File (te_data m)) /\
  calls (copy_from container path dest w).2
    = calls w ++ [GetArchive path (Some DEFAULT_BUF_SIZE); CloseStream].
Proof.
  intros Hresp Hreg Hdec Hdest Hparent.
  rewrite (copy_from_to_file container path dest w data st m ms)
    by assumption.
  simpl. rewrite lookup_insert_eq. done.
Qed.

Lemma rsplit_slash_none (p : string) :
  str_contains SLASH p = false -> rsplit_slash p = None.
Proof.
  induction p as [|c p IH]; simpl; [done|]. intros Hp.
  apply orb_false_iff in Hp as [Hc Hp]. rewrite (IH Hp), Hc. done.
Qed.

(** X14. A destination that is a bare file name, with no slash in it, is
    refused: its parent is computed as the empty path, which is not a
    directory, and [copy_from] raises the copy error "Not a directory: "
    with nothing after the colon, leaving the local files as they were. *)
Theorem copy_from_bare_file_name
    (container : Container) (path dest : string) (w : world)
    (data : list bytes) (st : Stat) (m : TarEntry) (ms : list TarEntry) :
  get_archive_response container path = Return (data, st) ->
  _is_reg (st_mode st) = true ->
  tar_decode (concat data) = Some (m :: ms) ->
  str_contains SLASH dest = false ->
  (os_path_isdir dest w).1 = Return false ->
  (os_path_isdir "" w).1 = Return false ->
  copy_from container path dest w
    = (Raise (CopyError "Not a directory: "),
       after_calls w [GetArchive path (Some DEFAULT_BUF_SIZE); CloseStream]).
Proof.
  intros Hresp Hreg Hdec Hbare Hdest Hempty.
  assert (Hparent : os_path_dirname dest = "")
    by (unfold os_path_dirname; rewrite rsplit_slash_none by exact Hbare; done).
  unfold os_path_isdir in Hdest, Hempty. simpl in Hdest, Hempty.
  run_copy_from. rewrite Hresp, Hreg. simpl.
  rewrite stream_bytes_init, Hdec. simpl. rewrite Hparent.
  destruct (fs w !! dest) as [[|c]|]; try discriminate; simpl;
    destruct (fs w !! "") as [[|c']|]; try discriminate;
    simpl; rewrite <- app_assoc; done.
Qed.

End DownloadPaths.

(** The download of [/etc/fedora-release] onto [/tmp/tr]. *)
Lemma copy_from_closes_the_stream_witness :
  calls (copy_from (codec := example_codec) test_container
           "/etc/fedora-release" "/tmp/tr" test_world).2
    = [GetArchive "/etc/fedora-release" (Some DEFAULT_BUF_SIZE); CloseStream].
Proof.
  destruct (copy_from_closes_the_stream (codec := example_codec)
              test_container "/etc/fedora-release" "/tmp/tr" test_world
              [fedora_release] (mkStat 420) eq_refl) as [Hcalls _].
  exact Hcalls.
Defined.

(** The first case of [test_copy_from]: a path the container does not have. *)
Lemma copy_from_fetch_fails_witness :
  copy_from (codec := example_codec) test_container "/etc/nonexistent" "/tmp"
    test_world
  = (Raise (APIError "404 Client Error: Not Found"),
     after_calls test_world
       [GetArchive "/etc/nonexistent" (Some DEFAULT_BUF_SIZE)]).
Proof.
  exact (copy_from_fetch_fails (codec := example_codec) test_container
           "/etc/nonexistent" "/tmp" test_world _ eq_refl).
Defined.

(** [/etc/fedora-release] into the directory [/tmp]. *)
Lemma copy_from_extracts_into_directory_witness :
  fs (copy_from (codec := example_codec) test_container "/etc/fedora-release"
        "/tmp" test_world).2 !! "/tmp/fedora-release"
    = Some (File fedora_release).
Proof.
  rewrite (copy_from_extracts_into_directory (codec := example_codec)
             test_container "/etc/fedora-release" "/tmp" test_world
             [fedora_release] (mkStat 420)
             (mkEntry "fedora-release" (concat [fedora_release])) []
             eq_refl eq_refl eq_refl eq_refl).
  - reflexivity.
  - constructor; [vm_compute; discriminate | constructor].
Defined.

(** The second case of [test_copy_from]: [/tmp/fedora-release] is a
    directory. *)
Lemma copy_from_name_is_a_directory_witness :
  copy_from (codec := example_codec) test_container "/etc/fedora-release"
    "/tmp" collision_world
  = (Raise (CopyError "Destination is a directory"),
     after_calls collision_world
       [GetArchive "/etc/fedora-release" (Some DEFAULT_BUF_SIZE); CloseStream]).
Proof.
  exact (copy_from_name_is_a_directory (codec := example_codec)
           test_container "/etc/fedora-release" "/tmp" collision_world
           [fedora_release] (mkStat 420)
           (mkEntry "fedora-release" (concat [fedora_release])) []
           eq_refl eq_refl eq_refl eq_refl eq_refl).
Defined.

(** Downloading onto [/tmp/tr] leaves [/tmp/src1] alone. *)
Lemma copy_from_touches_only_the_destination_witness :
  fs (copy_from (codec := example_codec) test_container "/etc/fedora-release"
        "/tmp/tr" test_world).2 !! "/tmp/src1"
    = Some (File (b_ "source1")).
Proof.
  rewrite (copy_from_touches_only_the_destination (codec := example_codec)
             test_container "/etc/fedora-release" "/tmp/tr" test_world
             "/tmp/src1" eq_refl); [reflexivity | discriminate].
Defined.

(** Downloading onto [/tmp/tr], which holds older bytes. *)
Lemma copy_from_writes_the_destination_witness :
  fs collision_world !! "/tmp/tr" = Some (File (b_ "old")) /\
  fs (copy_from (codec := example_codec) test_container "/etc/fedora-release"
        "/tmp/tr" collision_world).2 !! "/tmp/tr"
    = Some (File fedora_release).
Proof.
  split; [reflexivity|].
  destruct (copy_from_writes_the_destination (codec := example_codec)
              test_container "/etc/fedora-release" "/tmp/tr" collision_world
              [fedora_release] (mkStat 420)
              (mkEntry "fedora-release" (concat [fedora_release])) []
              eq_refl eq_refl eq_refl eq_refl eq_refl) as (_ & Hfile & _).
  exact Hfile.
Defined.

(** Downloading onto the bare name [tr]. *)
Lemma copy_from_bare_file_name_witness :
  copy_from (codec := example_codec) test_container "/etc/fedora-release"
    "tr" test_world
  = (Raise (CopyError "Not a directory: "),
     after_calls test_world
       [GetArchive "/etc/fedora-release" (Some DEFAULT_BUF_SIZE); CloseStream]).
Proof.
  exact (copy_from_bare_file_name (codec := example_codec) test_container
           "/etc/fedora-release" "tr" test_world
           [fedora_release] (mkStat 420)
           (mkEntry "fedora-release" (concat [fedora_release])) []
           eq_refl eq_refl eq_refl eq_refl eq_refl eq_refl).
Defined.

(** ** More on the upload *)

Section UploadPaths.

Context {codec : TarCodec}.

(** X15. An upload reads the local side and never writes it: whatever the
    engine answers and however [copy_to] ends, the local files are as before
    and nothing is printed. *)
Theorem copy_to_keeps_local_files
    (container : Container) (path src : string) (w : world) :
  fs (copy_to container path src w).2 = fs w /\
  stdout (copy_to container path src w).2 = stdout w.
Proof.
  unfold copy_to, bind, os_path_isfile, except_APIError_else, get_stat,
    get_archive, put_archive, file_read, stream_close, log_call, raise, ret.
  simpl.
  destruct (fs w !! src) as [[|content]|] eqn:Hsrc; simpl; try done.
  destruct (get_archive_response container path) as [[data st]|[]]; simpl;
    try done.
  - destruct (_is_dir (st_mode st)); simpl;
      [|destruct (_is_reg (st_mode st)); simpl; [|done]];
      rewrite Hsrc;
      destruct (put_archive_response _ _ _); done.
  - rewrite Hsrc. destruct (put_archive_response _ _ _); done.
Qed.

(** X16. Only an engine API error from the stat is read as "the path does
    not exist". Any other exception raised by the stat ends the upload: it
    is passed on as it is, after the one stat call and with no upload. *)
Theorem copy_to_stat_raises_other
    (container : Container) (path src : string) (w : world) (e : exn) :
  (os_path_isfile src w).1 = Return true ->
  get_archive_response container path = Raise e ->
  (forall msg, e <> APIError msg) ->
  copy_to container path src w
    = (Raise e, after_calls w [GetArchive path None]).
Proof.
  intros Hfile Hresp Hother.
  unfold os_path_isfile in Hfile. simpl in Hfile.
  unfold copy_to, bind, os_path_isfile, except_APIError_else, get_stat,
    get_archive, log_call, after_calls, raise, ret.
  simpl. destruct (fs w !! src) as [[|content]|]; try discriminate.
  simpl. rewrite Hresp.
  destruct e as [msg| | |]; [destruct (Hother msg eq_refl) | done..].
Qed.

End UploadPaths.

(** An upload of [src1] over a broken connection. *)
Lemma copy_to_stat_raises_other_witness :
  copy_to (codec := example_codec) unreachable_container "/tmp/test-copy-to"
    "/tmp/src1" test_world
  = (Raise (OtherError "ConnectionError"),
     after_calls test_world [GetArchive "/tmp/test-copy-to" None]).
Proof.
  apply (copy_to_stat_raises_other (codec := example_codec)
           unreachable_container "/tmp/test-copy-to" "/tmp/src1" test_world);
    [reflexivity | reflexivity | discriminate].
Defined.

(** ** More on the driver *)

Section DriverRuns.

Context {codec : TarCodec}.

Local Arguments copy_chunks : simpl never.

(** The client and the container are looked up before the transfer. *)
Lemma copy_attempt_run (docker : Docker)
    (action : Container -> string -> string -> M unit)
    (container : Container) (name cpath local : string) (w : world) :
  from_env_response docker = Return tt ->
  containers_get_response docker name = Return container ->
  copy_attempt docker action name cpath local w
    = action container cpath local
        (after_calls w [FromEnv; ContainersGet name]).
Proof.
  intros Henv Hget.
  unfold copy_attempt, bind, docker_from_env, containers_get, log_call,
    after_calls.
  simpl. rewrite Henv, Hget. simpl. rewrite <- app_assoc. done.
Qed.

Lemma copy_run_returns (docker : Docker)
    (action : Container -> string -> string -> M unit)
    (name cpath local : string) (w w' : world) :
  copy_attempt docker action name cpath local w = (Return tt, w') ->
  copy_run docker action name cpath local w = (Return 0, w').
Proof. intros Hrun. unfold copy_run. rewrite Hrun. done. Qed.

Lemma copy_run_copy_error (docker : Docker)
    (action : Container -> string -> string -> M unit)
    (name cpath local msg : string) (w w' : world) :
  copy_attempt docker action name cpath local w = (Raise (CopyError msg), w') ->
  copy_run docker action name cpath local w
    = (Return 2,
       mkWorld (fs w') (calls w') (stdout w' ++ ["Copy error: " +:+ msg])).
Proof. intros Hrun. unfold copy_run. rewrite Hrun. done. Qed.

Lemma copy_run_api_error (docker : Docker)
    (action : Container -> string -> string -> M unit)
    (name cpath local msg : string) (w w' : world) :
  copy_attempt docker action name cpath local w = (Raise (APIError msg), w') ->
  copy_run docker action name cpath local w
    = (Return 2,
       mkWorld (fs w') (calls w')
         (stdout w' ++ ["Docker API error: " +:+ msg])).
Proof. intros Hrun. unfold copy_run. rewrite Hrun. done. Qed.

(** X17. An invalid invocation prints one line and does nothing else: the
    local files and the engine's log are as before. A buffer length that is
    not positive is reported first, whatever the addressing; with a positive
    one, neither or both sides container-addressed is reported. *)
Theorem copy_invalid_invocation (docker : Docker) (args : Args) (w : world) :
  (buffer_length args <= 0 ->
   copy docker args w
     = (Return 1,
        mkWorld (fs w) (calls w)
          (stdout w ++ ["Buffer length should be positive integer"]))) /\
  (0 < buffer_length args ->
   str_contains SEP (source args) = str_contains SEP (destination args) ->
   copy docker args w
     = (Return 1,
        mkWorld (fs w) (calls w)
          (stdout w ++ ["Either source or destination should have format<container>:<path>"]))).
Proof.
  split.
  - intros Hb. unfold copy.
    replace (buffer_length args <=? 0) with true
      by (symmetry; apply Z.leb_le; lia).
    done.
  - intros Hb Hsame. unfold copy.
    replace (buffer_length args <=? 0) with false
      by (symmetry; apply Z.leb_gt; lia).
    rewrite Hsame. destruct (str_contains SEP (destination args)); done.
Qed.

(** X18. When the container is not found (the lookup raises an engine API
    error) [copy] prints "Docker API error: <message>" and returns 2, in
    either direction; no archive call is made and no local file is read or
    written. *)
Theorem copy_container_not_found
    (docker : Docker) (b : Z) (name cpath other msg : string) (w : world) :
  0 < b ->
  str_contains SEP name = false ->
  str_contains SEP other = false ->
  from_env_response docker = Return tt ->
  containers_get_response docker name = Raise (APIError msg) ->
  let w' := mkWorld (fs w) (calls w ++ [FromEnv; ContainersGet name])
              (stdout w ++ ["Docker API error: " +:+ msg]) in
  copy docker (mkArgs b (name +:+ String SEP cpath) other) w = (Return 2, w') /\
  copy docker (mkArgs b other (name +:+ String SEP cpath)) w = (Return 2, w').
Proof.
  intros Hb Hname Hother Henv Hget w'.
  assert (Hrun : forall action,
             copy_attempt docker action name cpath other w
             = (Raise (APIError msg),
                after_calls w [FromEnv; ContainersGet name])).
  { intros action.
    unfold copy_attempt, bind, docker_from_env, containers_get, log_call,
      after_calls.
    simpl. rewrite Henv, Hget. simpl. rewrite <- app_assoc. done. }
  split.
  - rewrite copy_download by assumption.
    rewrite (copy_run_api_error _ _ _ _ _ _ _ _ (Hrun _)). done.
  - rewrite copy_upload by assumption.
    rewrite (copy_run_api_error _ _ _ _ _ _ _ _ (Hrun _)). done.
Qed.

(** X19. Through the driver, a download of a path that is not a regular file
    prints "Copy error: Only regular files are supported" and returns 2; the
    engine saw the two lookups, the fetch and the close, and no local file
    changed. *)
Theorem copy_download_not_regular
    (docker : Docker) (container : Container) (b : Z)
    (name cpath dst : string) (w : world) (data : list bytes) (st : Stat) :
  0 < b ->
  str_contains SEP name = false ->
  str_contains SEP dst = false ->
  from_env_response docker = Return tt ->
  containers_get_response docker name = Return container ->
  get_archive_response container cpath = Return (data, st) ->
  _is_reg (st_mode st) = false ->
  copy docker (mkArgs b (name +:+ String SEP cpath) dst) w
    = (Return 2,
       mkWorld (fs w)
         (calls w ++ [FromEnv; ContainersGet name;
                      GetArchive cpath (Some DEFAULT_BUF_SIZE); CloseStream])
         (stdout w ++ ["Copy error: Only regular files are supported"])).
Proof.
  intros Hb Hname Hdst Henv Hget Hresp Hreg.
  rewrite copy_download by assumption.
  erewrite copy_run_copy_error.
  2:{ rewrite (copy_attempt_run _ _ container) by assumption.
      unfold copy_from, bind, get_archive, log_call, try_finally,
        except_IsADirectoryError, stream_close, raise, after_calls.
      simpl. rewrite Hresp, Hreg. simpl. reflexivity. }
  simpl. rewrite <- !app_assoc. done.
Qed.

(** X20. Through the driver, an upload of a local path that is not a file is
    refused after the container has been looked up: [copy] prints "Copy
    error: Not a file: <src>" and returns 2, and no archive call is made. *)
Theorem copy_upload_not_a_file
    (docker : Docker) (container : Container) (b : Z)
    (name cpath src : string) (w : world) :
  0 < b ->
  str_contains SEP name = false ->
  str_contains SEP src = false ->
  from_env_response docker = Return tt ->
  containers_get_response docker name = Return container ->
  (os_path_isfile src w).1 = Return false ->
  copy docker (mkArgs b src (name +:+ String SEP cpath)) w
    = (Return 2,
       mkWorld (fs w) (calls w ++ [FromEnv; ContainersGet name])
         (stdout w ++ ["Copy error: Not a file: " +:+ src])).
Proof.
  intros Hb Hname Hsrc Henv Hget Hfile.
  unfold os_path_isfile in Hfile. simpl in Hfile.
  rewrite copy_upload by assumption.
  erewrite copy_run_copy_error.
  2:{ rewrite (copy_attempt_run _ _ container) by assumption.
      unfold copy_to, bind, os_path_isfile, raise, after_calls. simpl.
      destruct (fs w !! src) as [[|c]|]; try discriminate; reflexivity. }
  done.
Qed.

(** X21. Through the driver, a download onto a file path whose parent
    exists returns 0 and prints nothing; the destination holds the payload
    of the archive's first member, and the engine saw the two lookups, the
    fetch with [DEFAULT_BUF_SIZE] and the close. *)
Theorem copy_download_succeeds
    (docker : Docker) (container : Container) (b : Z)
    (name cpath dst : string) (w : world)
    (data : list bytes) (st : Stat) (m : TarEntry) (ms : list TarEntry) :
  0 < b ->
  str_contains SEP name = false ->
  str_contains SEP dst = false ->
  from_env_response docker = Return tt ->
  containers_get_response docker name = Return container ->
  get_archive_response container cpath = Return (data, st) ->
  _is_reg (st_mode st) = true ->
  tar_decode (concat data) = Some (m :: ms) ->
  (os_path_isdir dst w).1 = Return false ->
  (os_path_isdir (os_path_dirname dst) w).1 = Return true ->
  copy docker (mkArgs b (name +:+ String SEP cpath) dst) w
    = (Return 0,
       mkWorld (<[dst := File (te_data m)]> (fs w))
         (calls w ++ [FromEnv; ContainersGet name;
                      GetArchive cpath (Some DEFAULT_BUF_SIZE); CloseStream])
         (stdout w)).
Proof.
  intros Hb Hname Hdst Henv Hget Hresp Hreg Hdec Hnodir Hparent.
  rewrite copy_download by assumption.
  erewrite copy_run_returns.
  2:{ rewrite (copy_attempt_run _ _ container) by assumption.
      apply (copy_from_to_file container cpath dst _ data st m ms);
        assumption. }
  simpl. rewrite <- !app_assoc. done.
Qed.

(** X22. Through the driver, an upload onto a path the container reports as
    a directory hands the engine the one-entry archive of the local file
    under its own base name, into that directory; [copy] returns 0 when the
    engine accepts it, and prints "Docker API error: <message>" and returns 2
    when the engine refuses it. *)
Theorem copy_upload_into_directory
    (docker : Docker) (container : Container) (b : Z)
    (name cpath src : string) (w : world)
    (content : bytes) (data : list bytes) (st : Stat) :
  0 < b ->
  str_contains SEP name = false ->
  str_contains SEP src = false ->
  from_env_response docker = Return tt ->
  containers_get_response docker name = Return container ->
  fs w !! src = Some (File content) ->
  get_archive_response container cpath = Return (data, st) ->
  _is_dir (st_mode st) = true ->
  let archive := tar_encode [mkEntry (os_path_basename src) content] in
  let cs := [FromEnv; ContainersGet name; GetArchive cpath None; CloseStream;
             PutArchive cpath archive] in
  (forall ok, put_archive_response container cpath archive = Return ok ->
     copy docker (mkArgs b src (name +:+ String SEP cpath)) w
       = (Return 0, after_calls w cs)) /\
  (forall msg,
     put_archive_response container cpath archive = Raise (APIError msg) ->
     copy docker (mkArgs b src (name +:+ String SEP cpath)) w
       = (Return 2,
          mkWorld (fs w) (calls w ++ cs)
            (stdout w ++ ["Docker API error: " +:+ msg]))).
Proof.
  intros Hb Hname Hsrc Henv Hget Hfile Hresp Hdir archive cs.
  assert (Hto : copy_to container cpath src
                  (after_calls w [FromEnv; ContainersGet name])
                = (discard (put_archive_response container cpath archive),
                   after_calls w cs)).
  { rewrite (copy_to_stat_dir container cpath src _ content data st)
      by assumption.
    unfold uploaded, after_calls. simpl. rewrite <- !app_assoc. done. }
  split.
  - intros ok Hput. rewrite copy_upload by assumption.
    apply copy_run_returns.
    rewrite (copy_attempt_run _ _ container) by assumption.
    rewrite Hto, Hput. done.
  - intros msg Hput. rewrite copy_upload by assumption.
    erewrite copy_run_api_error.
    2:{ rewrite (copy_attempt_run _ _ container) by assumption.
        rewrite Hto, Hput. reflexivity. }
    done.
Qed.

End DriverRuns.

(** The third row of [test_copy] with both sides local as well, and its
    fourth row. *)
Lemma copy_invalid_invocation_witness :
  copy (codec := example_codec) test_docker
    (mkArgs (-2) "/etc/system-release" "/tmp") test_world
  = (Return 1,
     mkWorld (fs test_world) []
       ["Buffer length should be positive integer"]) /\
  copy (codec := example_codec) test_docker
    (mkArgs 2 "/etc/system-release" "/tmp") test_world
  = (Return 1,
     mkWorld (fs test_world) []
       ["Either source or destination should have format<container>:<path>"]).
Proof.
  split.
  - destruct (copy_invalid_invocation (codec := example_codec) test_docker
                (mkArgs (-2) "/etc/system-release" "/tmp") test_world)
      as [Hlen _].
    apply Hlen. simpl. lia.
  - destruct (copy_invalid_invocation (codec := example_codec) test_docker
                (mkArgs 2 "/etc/system-release" "/tmp") test_world)
      as [_ Hform].
    apply Hform; [simpl; lia | reflexivity].
Defined.

(** A container name the engine does not know. *)
Lemma copy_container_not_found_witness :
  copy (codec := example_codec) test_docker
    (mkArgs 2 "other:/etc/fedora-release" "/tmp") test_world
  = (Return 2,
     mkWorld (fs test_world) [FromEnv; ContainersGet "other"]
       ["Docker API error: 404 Client Error: No such container"]).
Proof.
  destruct (copy_container_not_found (codec := example_codec) test_docker 2
              "other" "/etc/fedora-release" "/tmp"
              "404 Client Error: No such container" test_world)
    as [Hdown _]; [lia | reflexivity | reflexivity | reflexivity
                  | reflexivity | exact Hdown].
Defined.

(** Downloading the directory [/etc]. *)
Lemma copy_download_not_regular_witness :
  copy (codec := example_codec) test_docker (mkArgs 2 "test:/etc" "/tmp")
    test_world
  = (Return 2,
     mkWorld (fs test_world)
       [FromEnv; ContainersGet "test";
        GetArchive "/etc" (Some DEFAULT_BUF_SIZE); CloseStream]
       ["Copy error: Only regular files are supported"]).
Proof.
  apply (copy_download_not_regular (codec := example_codec) test_docker
           test_container 2 "test" "/etc" "/tmp" test_world
           [b_ "etc"] (mkStat (Z.lor MODE_DIR 493)));
    [lia | reflexivity..].
Defined.

(** Uploading a local path that does not exist. *)
Lemma copy_upload_not_a_file_witness :
  copy (codec := example_codec) test_docker
    (mkArgs 2 "/tmp/missing" "test:/tmp/test-copy-to") test_world
  = (Return 2,
     mkWorld (fs test_world) [FromEnv; ContainersGet "test"]
       ["Copy error: Not a file: /tmp/missing"]).
Proof.
  apply (copy_upload_not_a_file (codec := example_codec) test_docker
           test_container 2 "test" "/tmp/test-copy-to" "/tmp/missing"
           test_world);
    [lia | reflexivity..].
Defined.

(** The last case of [test_copy_from], through the driver. *)
Lemma copy_download_succeeds_witness :
  copy (codec := example_codec) test_docker
    (mkArgs 2 "test:/etc/fedora-release" "/tmp/tr") test_world
  = (Return 0,
     mkWorld (<["/tmp/tr" := File fedora_release]> (fs test_world))
       [FromEnv; ContainersGet "test";
        GetArchive "/etc/fedora-release" (Some DEFAULT_BUF_SIZE); CloseStream]
       []).
Proof.
  apply (copy_download_succeeds (codec := example_codec) test_docker
           test_container 2 "test" "/etc/fedora-release" "/tmp/tr" test_world
           [fedora_release] (mkStat 420)
           (mkEntry "fedora-release" (concat [fedora_release])) []);
    [lia | reflexivity..].
Defined.

(** The first case of [test_copy_to] through the driver, and the same upload
    into a read-only container. *)
Lemma copy_upload_into_directory_witness :
  (copy (codec := example_codec) test_docker
     (mkArgs 2 "/tmp/src1" "test:/tmp/test-copy-to") test_world).1
    = Return 0 /\
  (copy (codec := example_codec) readonly_docker
     (mkArgs 2 "/tmp/src1" "test:/tmp/test-copy-to") test_world).1
    = Return 2.
Proof.
  split.
  - pose proof (copy_upload_into_directory (codec := example_codec)
                  test_docker test_container 2 "test" "/tmp/test-copy-to"
                  "/tmp/src1" test_world (b_ "source1") []
                  (mkStat (Z.lor MODE_DIR 493))
                  ltac:(lia) eq_refl eq_refl eq_refl eq_refl eq_refl eq_refl
                  eq_refl) as Hup.
    cbv zeta in Hup. destruct Hup as [Hok _].
    exact (f_equal fst (Hok true eq_refl)).
  - pose proof (copy_upload_into_directory (codec := example_codec)
                  readonly_docker readonly_container 2 "test"
                  "/tmp/test-copy-to" "/tmp/src1" test_world (b_ "source1") []
                  (mkStat (Z.lor MODE_DIR 493))
                  ltac:(lia) eq_refl eq_refl eq_refl eq_refl eq_refl eq_refl
                  eq_refl) as Hup.
    cbv zeta in Hup. destruct Hup as [_ Hrefused].
    exact (f_equal fst
             (Hrefused "500 Server Error: read-only file system" eq_refl)).
Defined.
